(** * ChainHopper agent interface: a model of [scripts/agent.py]

    The script is a command-line front end: it parses its arguments, loads a
    YAML configuration and a markdown prompt template, composes a prompt and
    hands it to the external [claude] executable, either once and
    synchronously or once per issue in batch mode.

    The model is a shallow embedding.  Python strings are Rocq strings whose
    characters stand for code points below 256; integers are [Z]; everything
    the script does to the outside world (printing, starting a process,
    waiting for it) is recorded as an event of a trace, and what the outside
    world answers (files on disk, what git prints, how a child ends) is read
    from a [World].

    What is taken for granted: a child that has been started ends, so that
    waiting for it returns; the command line reaches [parse_args] with its
    option names already recognised.  Which spellings of an option name a
    given version of [argparse] accepts is not modelled: abbreviations, and
    the long form [--pr], which interpreters before 3.12 refuse as
    ambiguous with the two global flags where [-p] is accepted. *)

From Stdlib Require Import String Ascii List ZArith Lia Bool Arith.
From Stdlib Require Import DecimalString.
From Stdlib Require DecimalPos.
Import ListNotations.

Local Open Scope list_scope.
Local Open Scope string_scope.

(** ** Python string primitives *)

Module PyStr.

(** [str.isspace] on one character, for code points below 256: the ASCII
    controls 9-13 and 28-31, the blank, NEL (0x85) and NBSP (0xA0). *)
Definition isspace (c : ascii) : bool :=
  let n := nat_of_ascii c in
  (((9 <=? n) && (n <=? 13)) || ((28 <=? n) && (n <=? 32))
   || (n =? 133) || (n =? 160))%nat.

Fixpoint lstrip (s : string) : string :=
  match s with
  | String c s' => if isspace c then lstrip s' else s
  | EmptyString => EmptyString
  end.

(** [rstrip] keeps a character when it is not a blank or when something
    is kept after it. *)
Fixpoint rstrip (s : string) : string :=
  match s with
  | String c s' =>
      match rstrip s' with
      | EmptyString => if isspace c then EmptyString else String c EmptyString
      | r => String c r
      end
  | EmptyString => EmptyString
  end.

(** [s.strip()] *)
Definition strip (s : string) : string := rstrip (lstrip s).

(** [s.startswith(p)] *)
Fixpoint startswith (p s : string) : bool :=
  match p, s with
  | EmptyString, _ => true
  | String a p', String b s' => Ascii.eqb a b && startswith p' s'
  | String _ _, EmptyString => false
  end.

(** [p in s] *)
Fixpoint contains (p s : string) : bool :=
  startswith p s ||
  match s with
  | String _ s' => contains p s'
  | EmptyString => false
  end.

(** The scan shared by [split] and [replace]: walk the text from the left;
    [skip] counts the characters of a separator match still to be passed
    over, [cur] is the piece collected since the last separator. *)
Fixpoint split_scan (sep : string) (skip : nat) (cur : string) (s : string)
  : list string :=
  match s with
  | EmptyString => [cur]
  | String c s' =>
      match skip with
      | S k => split_scan sep k cur s'
      | O =>
          if startswith sep s
          then cur :: split_scan sep (String.length sep - 1) EmptyString s'
          else split_scan sep 0 (cur ++ String c EmptyString) s'
      end
  end.

(** [s.split(sep)] for a separator that is not empty (every separator of
    the script is a literal). *)
Definition split (sep s : string) : list string :=
  split_scan sep 0 EmptyString s.

(** [s.replace(old, new)] for [old] not empty: the occurrences are found
    from the left and do not overlap, as in [split]. *)
Fixpoint replace_scan (old new : string) (skip : nat) (s : string) : string :=
  match s with
  | EmptyString => EmptyString
  | String c s' =>
      match skip with
      | S k => replace_scan old new k s'
      | O =>
          if startswith old s
          then new ++ replace_scan old new (String.length old - 1) s'
          else String c (replace_scan old new 0 s')
      end
  end.

Definition replace (old new s : string) : string :=
  replace_scan old new 0 s.

(** [s * n] *)
Fixpoint repeat (s : string) (n : nat) : string :=
  match n with
  | O => EmptyString
  | S k => s ++ repeat s k
  end.

(** [str(n)] for an [int]. *)
Definition str (n : Z) : string := NilZero.string_of_int (Z.to_int n).

Definition is_digit (c : ascii) : bool :=
  let n := nat_of_ascii c in ((48 <=? n) && (n <=? 57))%nat.

Definition digit_val (c : ascii) : Z := Z.of_nat (nat_of_ascii c - 48).

(** The digits of a decimal literal, most significant first; a single
    underscore may stand between two digits.  [prev] tells whether the
    character before was a digit, [acc] is the value read so far. *)
Fixpoint int_digits (prev : bool) (acc : Z) (s : string) : option Z :=
  match s with
  | EmptyString => if prev then Some acc else None
  | String c s' =>
      if is_digit c then int_digits true (10 * acc + digit_val c) s'
      else if Ascii.eqb c "_" then
        (if prev then int_digits false acc s' else None)
      else None
  end.

(** The blanks [int] drops around a literal: the six of C (tab, newline,
    vertical tab, form feed, carriage return, space), and NEL and NBSP,
    which it turns into spaces first.  The separators 28-31, which
    [str.strip] drops, are not among them. *)
Definition int_isspace (c : ascii) : bool :=
  let n := nat_of_ascii c in
  (((9 <=? n) && (n <=? 13)) || (n =? 32) || (n =? 133) || (n =? 160))%nat.

Fixpoint int_lstrip (s : string) : string :=
  match s with
  | String c s' => if int_isspace c then int_lstrip s' else s
  | EmptyString => EmptyString
  end.

Fixpoint int_rstrip (s : string) : string :=
  match s with
  | String c s' =>
      match int_rstrip s' with
      | EmptyString =>
          if int_isspace c then EmptyString else String c EmptyString
      | r => String c r
      end
  | EmptyString => EmptyString
  end.

(** [int(s)] on a string: blanks around the literal are dropped, then an
    optional sign and the digits are read.  [None] is [ValueError].  The
    interpreter's cap on the length of a literal
    ([sys.set_int_max_str_digits]) is left out: literals are taken to be
    shorter than it. *)
Definition int (s : string) : option Z :=
  match int_rstrip (int_lstrip s) with
  | String "-" d => option_map Z.opp (int_digits false 0 d)
  | String "+" d => int_digits false 0 d
  | d => int_digits false 0 d
  end.

End PyStr.

Import PyStr.

(** ** Effects: traces, exits and exceptions *)

(** The exceptions the script can meet. *)
Inductive exn : Type :=
| ValueError
| IndexError
| AttributeError
| OSError
| YAMLError.

(** Why [argparse] refuses a command line. *)
Inductive arg_error : Type :=
| CommandRequired
| InvalidChoice (given : string)
| ArgumentRequired (option_name : string)
| InvalidInt (option_name value : string)
| Unrecognized.

(** What the script does to the outside world, in order. *)
Inductive event : Type :=
| Print (text : string)        (* print(text) *)
| PrintHelp                    (* parser.print_help() *)
| PrintSubHelp (command : string) (* print_help() of a subparser *)
| UsageError (why : arg_error) (* parser.error(...): usage line and message *)
| Run (cmd : list string)      (* subprocess.run(cmd): start a child, wait *)
| Popen (cmd : list string)    (* subprocess.Popen(cmd): start a child *)
| Wait (pid : nat).            (* proc.wait() on the pid-th started child *)

(** How a piece of the script ends: with a value, by [sys.exit(code)], or
    by an exception that travels up. *)
Inductive result (A : Type) : Type :=
| Ret (a : A)
| Exit (code : Z)
| Raise (e : exn).

Arguments Ret {A} a.
Arguments Exit {A} code.
Arguments Raise {A} e.

Definition Proc (A : Type) : Type := list event * result A.

Definition trace {A} (p : Proc A) : list event := fst p.
Definition outcome {A} (p : Proc A) : result A := snd p.

Definition proc_bind {A B} (m : Proc A) (f : A -> Proc B) : Proc B :=
  match snd m with
  | Ret a => ((fst m ++ fst (f a))%list, snd (f a))
  | Exit c => (fst m, Exit c)
  | Raise e => (fst m, Raise e)
  end.

Definition ret {A} (a : A) : Proc A := ([], Ret a).

Declare Scope proc_scope.
Delimit Scope proc_scope with proc.

Notation "x <- c1 ;; c2" := (proc_bind c1 (fun x => c2))
  (at level 61, c1 at next level, right associativity) : proc_scope.
Notation "' pat <- c1 ;; c2" := (proc_bind c1 (fun x => match x with pat => c2 end))
  (at level 61, pat pattern, c1 at next level, right associativity) : proc_scope.
Notation "c1 ;; c2" := (proc_bind c1 (fun _ => c2))
  (at level 61, right associativity) : proc_scope.

Local Open Scope proc_scope.

Definition emit (e : event) : Proc unit := ([e], Ret tt).
Definition print (text : string) : Proc unit := emit (Print text).
Definition sys_exit {A} (code : Z) : Proc A := ([], Exit code).
Definition raise {A} (e : exn) : Proc A := ([], Raise e).

(** [try: body except Exception: handler].  [sys.exit] raises [SystemExit],
    which is not an [Exception], so it passes through. *)
Definition try_except {A} (body : Proc A) (handler : exn -> Proc A) : Proc A :=
  match snd body with
  | Raise e => ((fst body ++ fst (handler e))%list, snd (handler e))
  | _ => body
  end.

(** A step that may raise: [None] is the exception [e]. *)
Definition or_raise {A} (e : exn) (o : option A) : Proc A :=
  match o with
  | Some a => ret a
  | None => raise e
  end.

(** The status the operating system sees when the script ends: the argument
    of [sys.exit], or 1 after an uncaught exception. *)
Definition exit_code {A} (r : result A) : option Z :=
  match r with
  | Ret _ => None
  | Exit c => Some c
  | Raise _ => Some 1%Z
  end.

(** ** The outside world *)

(** A file the script looks for: not there, there but reading it raises, or
    there with its content. *)
Inductive file (A : Type) : Type :=
| Absent
| Faulty (e : exn)
| Content (a : A).

Arguments Absent {A}.
Arguments Faulty {A} e.
Arguments Content {A} a.

(** What [yaml.safe_load] returns.  The script never looks inside. *)
#[warnings="-register-all"]
Inductive yaml : Type :=
| YNull
| YBool (b : bool)
| YInt (n : Z)
| YStr (s : string)
| YSeq (items : list yaml)
| YMap (entries : list (yaml * yaml)).

Record World : Type := {
  (** [str(CONFIG_PATH)] and [str(PROMPTS_DIR)], fixed by where the script
      is installed *)
  config_path : string;
  prompts_dir : string;
  (** [.agent/config.yml] *)
  config_file : file yaml;
  (** [.agent/prompts/<name>.md], by name *)
  prompt_file : string -> file string;
  (** what [git remote get-url origin] prints; [None] when running it
      raises *)
  git_origin : option string;
  (** the return code of the [k]-th [claude] child started with this
      command line; [None] when starting it raises *)
  child : nat -> list string -> option Z
}.

(** ** The command line *)

(** Where [-h] or [--help] stands on the command line.  [argparse] reads
    the command line from the left and acts on what it reads at once, so
    the place decides what has been checked before the help is printed. *)
Inductive help_place : Type :=
| HelpGlobal         (* among the global flags, before the subcommand word *)
| HelpBeforeOption   (* after the subcommand word, before its own option *)
| HelpAfterOption.   (* after the subcommand word and its own option *)

(** What the user typed, once [argparse] has told the option names apart:
    the two global flags, the subcommand word, the value text of the
    options that followed it, and the place of [-h] if it was given. *)
Record Invocation : Type := {
  given_provider : option string;
  given_print_only : bool;
  given_command : option string;
  given_issue : option string;
  given_pr : option string;
  given_issues : option string;
  given_help : option help_place
}.

(** The [argparse.Namespace] that [parse_args] builds.  An attribute the
    chosen subparser does not define is [None]; reading it raises
    [AttributeError]. *)
Record Namespace : Type := {
  provider : string;
  print_only : bool;
  command : string;
  issue : option Z;
  pr : option Z;
  issues : option string
}.

Definition attr {A} (field : option A) : Proc A := or_raise AttributeError field.

(** [parser.error(...)]: usage and message on stderr, exit status 2. *)
Definition parser_error {A} (why : arg_error) : Proc A :=
  emit (UsageError why) ;; sys_exit 2%Z.

(** An option declared with [type=int, required=True]. *)
Definition required_int (name : string) (given : option string) : Proc Z :=
  match given with
  | None => parser_error (ArgumentRequired name)
  | Some text =>
      match PyStr.int text with
      | Some n => ret n
      | None => parser_error (InvalidInt name text)
      end
  end.

(** An option declared with [required=True] and no type. *)
Definition required_text (name : string) (given : option string) : Proc string :=
  match given with
  | None => parser_error (ArgumentRequired name)
  | Some text => ret text
  end.

(** An option that the chosen subparser does not know. *)
Definition unknown_option {A} (given : option A) : Proc unit :=
  match given with
  | None => ret tt
  | Some _ => parser_error Unrecognized
  end.

(** [-h] read by the main parser: its help is printed and the program
    exits with 0. *)
Definition main_help {A} : Proc A := emit PrintHelp ;; sys_exit 0%Z.

(** [-h] read by the subparser of [c]: the help of that subparser is
    printed and the program exits with 0. *)
Definition sub_help {A} (c : string) : Proc A :=
  emit (PrintSubHelp c) ;; sys_exit 0%Z.

(** The value of an option with [type=int] is converted when the option is
    read: a bad value is refused there, before what follows it is read. *)
Definition converted_int (name : string) (given : option string) : Proc unit :=
  match given with
  | Some text =>
      match PyStr.int text with
      | Some _ => ret tt
      | None => parser_error (InvalidInt name text)
      end
  | None => ret tt
  end.

(** [parser.parse_args()] for the parser built in [main]: [--provider]
    defaults to ["claude-code"], [--print-only] is a flag, the subcommand is
    required and must be one of the four registered subparsers, each with
    its own required option.  The parser and every subparser have the
    [-h] of [argparse]: help is printed as soon as [-h] is read, before the
    words after it are looked at and before the check for what is
    required. *)
Definition parse_args (inv : Invocation) : Proc Namespace :=
  let prov := match given_provider inv with
              | Some p => p
              | None => "claude-code"
              end in
  match given_help inv, given_command inv with
  | Some HelpGlobal, _ => main_help
  | Some _, None => main_help
  | None, None => parser_error CommandRequired
  | help, Some c =>
      if String.eqb c "implement" then
        match help with
        | Some HelpAfterOption =>
            converted_int "--issue" (given_issue inv) ;; sub_help c
        | Some _ => sub_help c
        | None =>
            n <- required_int "--issue" (given_issue inv) ;;
            unknown_option (given_pr inv) ;;
            unknown_option (given_issues inv) ;;
            ret {| provider := prov; print_only := given_print_only inv;
                   command := c; issue := Some n; pr := None;
                   issues := None |}
        end
      else if String.eqb c "review" || String.eqb c "security-review" then
        match help with
        | Some HelpAfterOption =>
            converted_int "--pr" (given_pr inv) ;; sub_help c
        | Some _ => sub_help c
        | None =>
            n <- required_int "--pr" (given_pr inv) ;;
            unknown_option (given_issue inv) ;;
            unknown_option (given_issues inv) ;;
            ret {| provider := prov; print_only := given_print_only inv;
                   command := c; issue := None; pr := Some n;
                   issues := None |}
        end
      else if String.eqb c "batch" then
        match help with
        | Some _ => sub_help c
        | None =>
            s <- required_text "--issues" (given_issues inv) ;;
            unknown_option (given_issue inv) ;;
            unknown_option (given_pr inv) ;;
            ret {| provider := prov; print_only := given_print_only inv;
                   command := c; issue := None; pr := None;
                   issues := Some s |}
        end
      else parser_error (InvalidChoice c)
  end.

(** ** The script *)

Definition nl : string := String (ascii_of_nat 10) EmptyString.

(** [load_config()] *)
Definition load_config (w : World) : Proc yaml :=
  match config_file w with
  | Absent =>
      print ("Config not found at " ++ config_path w) ;;
      sys_exit 1%Z
  | Faulty e => raise e
  | Content c => ret c
  end.

(** [load_prompt(name)] *)
Definition load_prompt (w : World) (name : string) : Proc string :=
  let prompt_path := prompts_dir w ++ "/" ++ name ++ ".md" in
  match prompt_file w name with
  | Absent =>
      print ("Prompt not found: " ++ prompt_path) ;;
      sys_exit 1%Z
  | Faulty e => raise e
  | Content text => ret text
  end.

(** [subprocess.run(cmd, cwd=SCRIPT_DIR).returncode] for the agent. *)
Definition subprocess_run (w : World) (cmd : list string) : Proc Z :=
  emit (Run cmd) ;;
  or_raise OSError (child w 0 cmd).

(** [run_claude_code(prompt, print_only)] *)
Definition run_claude_code (w : World) (prompt : string) (print_only : bool)
  : Proc Z :=
  let cmd := (["claude"] ++ (if print_only then ["--print"] else [])
              ++ [prompt])%list in
  print ("Running: claude " ++ (if print_only then "--print " else "")
         ++ "<prompt>") ;;
  print (PyStr.repeat "-" 50) ;;
  subprocess_run w cmd.

Definition git_cmd : list string := ["git"; "remote"; "get-url"; "origin"].

(** [subprocess.run(git_cmd, capture_output=True, text=True).stdout] *)
Definition git_remote_url (w : World) : Proc string :=
  emit (Run git_cmd) ;;
  or_raise OSError (git_origin w).

(** [xs[1]] *)
Definition second (xs : list string) : Proc string :=
  or_raise IndexError (nth_error xs 1).

(** [a, b = xs] *)
Definition unpack2 (xs : list string) : Proc (string * string) :=
  match xs with
  | [a; b] => ret (a, b)
  | _ => raise ValueError
  end.

(** Lines 70 to 76 of [get_repo_info]: take the path out of a URL that
    mentions github.com and cut it in two. *)
Definition parse_github_url (url : string)
  : Proc (option string * option string) :=
  path <- (if startswith "git@" url
           then second (split ":" url)
           else second (split "github.com/" url)) ;;
  let path := replace ".git" "" path in
  '(owner, repo) <- unpack2 (split "/" path) ;;
  ret (Some owner, Some repo).

(** [get_repo_info()].  Leaving the [try] block without a [return] falls
    through to the final [return None, None]. *)
Definition get_repo_info (w : World) : Proc (option string * option string) :=
  try_except
    (out <- git_remote_url w ;;
     let url := strip out in
     if contains "github.com" url
     then parse_github_url url
     else ret (None, None))
    (fun _ => ret (None, None)).

(** Truth value of an [owner] that is [None] or a string. *)
Definition truthy (o : option string) : bool :=
  match o with
  | Some (String _ _) => true
  | _ => false
  end.

(** The f-string of [cmd_implement]. *)
Definition implement_prompt (issue_ref base_prompt : string) (issue : Z)
  : string :=
  "Read GitHub issue " ++ issue_ref ++ " and implement it." ++ nl
  ++ nl
  ++ replace "{task_description}" ("See issue " ++ issue_ref) base_prompt ++ nl
  ++ replace "{issue_number}" (str issue) base_prompt ++ nl
  ++ nl
  ++ "Steps:" ++ nl
  ++ "1. Read the issue to understand requirements" ++ nl
  ++ "2. Create branch: agent/" ++ str issue ++ nl
  ++ "3. Implement the solution" ++ nl
  ++ "4. Run tests if applicable" ++ nl
  ++ "5. Commit with meaningful messages" ++ nl
  ++ "6. Create a PR linking to the issue" ++ nl.

(** [cmd_implement(args, config)] *)
Definition cmd_implement (w : World) (args : Namespace) (config : yaml)
  : Proc Z :=
  '(owner, repo) <- get_repo_info w ;;
  n <- attr (issue args) ;;
  let issue_ref := if truthy owner then "#" ++ str n else "issue " ++ str n in
  base_prompt <- load_prompt w "implement" ;;
  let prompt := implement_prompt issue_ref base_prompt n in
  run_claude_code w prompt (print_only args).

(** The f-string of [cmd_review]. *)
Definition review_prompt (prompt_template : string) (pr : Z) : string :=
  "Review PR #" ++ str pr ++ " for this repository." ++ nl
  ++ nl
  ++ prompt_template ++ nl
  ++ nl
  ++ "Steps:" ++ nl
  ++ "1. Read the PR diff and description" ++ nl
  ++ "2. Check against the review criteria" ++ nl
  ++ "3. If issues found, post a review comment on the PR" ++ nl
  ++ "4. If LGTM, approve the PR (or post approval comment)" ++ nl.

(** [cmd_review(args, config)] *)
Definition cmd_review (w : World) (args : Namespace) (config : yaml)
  : Proc Z :=
  prompt_template <- load_prompt w "review" ;;
  n <- attr (pr args) ;;
  run_claude_code w (review_prompt prompt_template n) (print_only args).

(** The f-string of [cmd_security_review]. *)
Definition security_prompt (prompt_template : string) (pr : Z) : string :=
  "Perform a security review of PR #" ++ str pr ++ "." ++ nl
  ++ nl
  ++ prompt_template ++ nl
  ++ nl
  ++ "This is a SECURITY review - be thorough and paranoid." ++ nl
  ++ "Post findings as a review comment on the PR." ++ nl.

(** [cmd_security_review(args, config)] *)
Definition cmd_security_review (w : World) (args : Namespace) (config : yaml)
  : Proc Z :=
  prompt_template <- load_prompt w "security" ;;
  n <- attr (pr args) ;;
  run_claude_code w (security_prompt prompt_template n) (print_only args).

(** A child started by [subprocess.Popen]: its place in the order of
    starting, and the return code [wait] will find. *)
Record process : Type := {
  pid : nat;
  returncode : Z
}.

(** [subprocess.Popen(cmd, cwd=SCRIPT_DIR)], the [k]-th start. *)
Definition popen (w : World) (k : nat) (cmd : list string) : Proc process :=
  emit (Popen cmd) ;;
  rc <- or_raise OSError (child w k cmd) ;;
  ret {| pid := k; returncode := rc |}.

(** [proc.wait()], then [proc.returncode]. *)
Definition wait (p : process) : Proc Z :=
  emit (Wait (pid p)) ;;
  ret (returncode p).

(** [[int(i.strip()) for i in tokens]] *)
Fixpoint parse_issues (tokens : list string) : Proc (list Z) :=
  match tokens with
  | [] => ret []
  | i :: rest =>
      n <- or_raise ValueError (PyStr.int (strip i)) ;;
      ns <- parse_issues rest ;;
      ret (n :: ns)
  end.

(** The f-string of [cmd_batch]. *)
Definition batch_prompt (issue : Z) : string :=
  "Read GitHub issue #" ++ str issue
  ++ " and implement it. Create branch agent/" ++ str issue
  ++ ", implement, and create a PR.".

Definition batch_cmd (issue : Z) : list string :=
  ["claude"; "--print"; batch_prompt issue].

(** The first loop of [cmd_batch]; [k] children have been started already.
    The result is the list [processes]. *)
Fixpoint start_all (w : World) (k : nat) (todo : list Z)
  : Proc (list (Z * process)) :=
  match todo with
  | [] => ret []
  | issue :: rest =>
      let cmd := batch_cmd issue in
      print ("  Starting issue #" ++ str issue ++ "...") ;;
      proc <- popen w k cmd ;;
      processes <- start_all w (S k) rest ;;
      ret ((issue, proc) :: processes)
  end.

(** The second loop of [cmd_batch]. *)
Fixpoint wait_all (processes : list (Z * process)) : Proc unit :=
  match processes with
  | [] => ret tt
  | (issue, proc) :: rest =>
      rc <- wait proc ;;
      let status := if Z.eqb rc 0 then "done" else "failed" in
      print ("  Issue #" ++ str issue ++ ": " ++ status) ;;
      wait_all rest
  end.

(** [cmd_batch(args, config)] *)
Definition cmd_batch (w : World) (args : Namespace) (config : yaml)
  : Proc Z :=
  text <- attr (issues args) ;;
  todo <- parse_issues (split "," text) ;;
  print ("Dispatching " ++ str (Z.of_nat (List.length todo)) ++ " tasks...") ;;
  processes <- start_all w 0 todo ;;
  print (nl ++ "Waiting for all tasks to complete...") ;;
  wait_all processes ;;
  ret 0%Z.

Definition handler : Type := World -> Namespace -> yaml -> Proc Z.

(** The dictionary [commands] of [main]. *)
Definition commands : list (string * handler) :=
  [ ("implement", cmd_implement);
    ("review", cmd_review);
    ("security-review", cmd_security_review);
    ("batch", cmd_batch) ].

(** [d.get(key)] *)
Fixpoint dict_get {V} (d : list (string * V)) (key : string) : option V :=
  match d with
  | [] => None
  | (k, v) :: rest => if String.eqb k key then Some v else dict_get rest key
  end.

(** The part of [main] after [parse_args]: load the configuration, check
    the provider, look the handler up and run it. *)
Definition dispatch (w : World) (args : Namespace) : Proc Empty_set :=
  config <- load_config w ;;
  if negb (String.eqb (provider args) "claude-code") then
    print ("Provider '" ++ provider args ++ "' not yet implemented.") ;;
    print "Currently only claude-code (Max subscription) is supported." ;;
    print "Other providers can be added to scripts/agent.py as needed." ;;
    sys_exit 1%Z
  else
    match dict_get commands (command args) with
    | Some h => rc <- h w args config ;; sys_exit rc
    | None => emit PrintHelp ;; sys_exit 1%Z
    end.

(** [main()] *)
Definition main (w : World) (inv : Invocation) : Proc Empty_set :=
  args <- parse_args inv ;;
  dispatch w args.

(** ** Reading a run *)

(** Every child process a run starts or tries to start (the call is
    recorded also when it raises), agent or git, in order. *)
Fixpoint spawned (t : list event) : list (list string) :=
  match t with
  | [] => []
  | Run cmd :: t' => cmd :: spawned t'
  | Popen cmd :: t' => cmd :: spawned t'
  | _ :: t' => spawned t'
  end.

(** A command line that starts the agent. *)
Definition is_agent (cmd : list string) : bool :=
  match cmd with
  | exe :: _ => String.eqb exe "claude"
  | [] => false
  end.

Definition agent_spawned (t : list event) : list (list string) :=
  filter is_agent (spawned t).

(** The prompts handed to the agent: the last argument of each of its
    command lines. *)
Definition prompts_sent (t : list event) : list string :=
  map (fun cmd => last cmd "") (agent_spawned t).

(** The command lines given to [Popen], in order, whether the call
    returns a process or raises. *)
Fixpoint started (t : list event) : list (list string) :=
  match t with
  | [] => []
  | Popen cmd :: t' => cmd :: started t'
  | _ :: t' => started t'
  end.

(** The children waited for, in order. *)
Fixpoint waited (t : list event) : list nat :=
  match t with
  | [] => []
  | Wait k :: t' => k :: waited t'
  | _ :: t' => waited t'
  end.

(** The line printed right after each [wait]. *)
Fixpoint reports (t : list event) : list (nat * string) :=
  match t with
  | [] => []
  | Wait k :: Print line :: t' => (k, line) :: reports t'
  | _ :: t' => reports t'
  end.

(** The command line [run_claude_code] builds. *)
Definition claude_cmd (prompt : string) (print_only : bool) : list string :=
  (["claude"] ++ (if print_only then ["--print"] else []) ++ [prompt])%list.

(** What starting one child ends in: its return code, or [OSError]. *)
Definition child_result (w : World) (k : nat) (cmd : list string) : result Z :=
  match child w k cmd with
  | Some rc => Ret rc
  | None => Raise OSError
  end.

(** What [run_claude_code] prints and starts. *)
Definition claude_events (prompt : string) (print_only : bool) : list event :=
  [Print ("Running: claude " ++ (if print_only then "--print " else "")
          ++ "<prompt>");
   Print (PyStr.repeat "-" 50);
   Run (claude_cmd prompt print_only)].

(** The way [cmd_implement] names the issue. *)
Definition issue_ref (owner : option string) (n : Z) : string :=
  if truthy owner then "#" ++ str n else "issue " ++ str n.

(** The run gets as far as a handler: the command line parses, the
    configuration loads and the provider is the supported one. *)
Definition ready (w : World) (inv : Invocation) (args : Namespace)
    (config : yaml) : Prop :=
  parse_args inv = ([], Ret args)
  /\ config_file w = Content config
  /\ provider args = "claude-code".

(** A run that only prints a help text, of the parser or of a subparser,
    and exits with 0. *)
Definition help_run {A} (p : Proc A) : Prop :=
  p = ([PrintHelp], Exit 0%Z) \/ exists c, p = ([PrintSubHelp c], Exit 0%Z).

(** [-h] is read by the main parser: it stands among the global flags, or
    there is no subcommand word for it to stand after. *)
Definition help_first (inv : Invocation) : bool :=
  match given_help inv, given_command inv with
  | Some HelpGlobal, _ => true
  | Some _, None => true
  | _, _ => false
  end.

(** The subcommands that run one agent and wait for it. *)
Definition single_task : list string :=
  ["implement"; "review"; "security-review"].

(** The names registered with [add_parser]. *)
Definition subcommands : list string :=
  ["implement"; "review"; "security-review"; "batch"].

(** The template each handler asks [load_prompt] for. *)
Definition template_of (cmd : string) : option string :=
  if String.eqb cmd "implement" then Some "implement"
  else if String.eqb cmd "review" then Some "review"
  else if String.eqb cmd "security-review" then Some "security"
  else None.

(** Every child of the batch can be started. *)
Fixpoint all_start (w : World) (k : nat) (todo : list Z) : bool :=
  match todo with
  | [] => true
  | issue :: rest =>
      match child w k (batch_cmd issue) with
      | Some _ => all_start w (S k) rest
      | None => false
      end
  end.

(** The return code the [k]-th child of the batch ends with. *)
Definition batch_rc (w : World) (k : nat) (issue : Z) : Z :=
  match child w k (batch_cmd issue) with
  | Some rc => rc
  | None => 0%Z
  end.

(** The list [processes] once every child has been started. *)
Fixpoint batch_processes (w : World) (k : nat) (todo : list Z)
  : list (Z * process) :=
  match todo with
  | [] => []
  | issue :: rest =>
      (issue, {| pid := k; returncode := batch_rc w k issue |})
        :: batch_processes w (S k) rest
  end.

(** What the first loop of [cmd_batch] does when every child starts. *)
Definition start_events (todo : list Z) : list event :=
  flat_map (fun issue =>
              [Print ("  Starting issue #" ++ str issue ++ "...");
               Popen (batch_cmd issue)]) todo.

(** What the second loop of [cmd_batch] does. *)
Definition wait_events (processes : list (Z * process)) : list event :=
  flat_map (fun ip : Z * process =>
              [Wait (pid (snd ip));
               Print ("  Issue #" ++ str (fst ip) ++ ": "
                      ++ (if Z.eqb (returncode (snd ip)) 0
                          then "done" else "failed"))]) processes.

(** What [get_repo_info] returns in a world. *)
Definition repo_info (w : World) : option string * option string :=
  match outcome (get_repo_info w) with
  | Ret r => r
  | _ => (None, None)
  end.

(** The same world with another configuration loaded. *)
Definition with_config (w : World) (c : yaml) : World :=
  {| config_path := config_path w;
     prompts_dir := prompts_dir w;
     config_file := Content c;
     prompt_file := prompt_file w;
     git_origin := git_origin w;
     child := child w |}.

(** The same command line with [--print-only] given, or not given. *)
Definition with_print_only (inv : Invocation) (b : bool) : Invocation :=
  {| given_provider := given_provider inv;
     given_print_only := b;
     given_command := given_command inv;
     given_issue := given_issue inv;
     given_pr := given_pr inv;
     given_issues := given_issues inv;
     given_help := given_help inv |}.

(** All characters of a string are blanks. *)
Fixpoint blank (s : string) : bool :=
  match s with
  | EmptyString => true
  | String c s' => isspace c && blank s'
  end.

(** A character does not occur in a string. *)
Fixpoint lacks (c : ascii) (s : string) : bool :=
  match s with
  | EmptyString => true
  | String d s' => negb (Ascii.eqb c d) && lacks c s'
  end.

(** The two forms of a GitHub remote. *)
Definition ssh_url (owner repo : string) : string :=
  "git@github.com:" ++ owner ++ "/" ++ repo ++ ".git".

Definition https_url (owner repo : string) : string :=
  "https://github.com/" ++ owner ++ "/" ++ repo ++ ".git".

(** No character of a string is a blank. *)
Fixpoint nospace (s : string) : bool :=
  match s with
  | EmptyString => true
  | String c s' => negb (isspace c) && nospace s'
  end.

(** All characters of a string are decimal digits. *)
Fixpoint digits_only (s : string) : bool :=
  match s with
  | EmptyString => true
  | String c s' => is_digit c && digits_only s'
  end.

(** An issue list written out: the numbers in decimal, with [sep] between
    them. *)
Definition issues_text (sep : string) (ns : list Z) : string :=
  String.concat sep (map str ns).

(** An SSH remote on any host. *)
Definition ssh_url_at (host owner repo : string) : string :=
  "git@" ++ host ++ ":" ++ owner ++ "/" ++ repo ++ ".git".

(** ** Sample runs *)

Module Sample.

Definition templates (name : string) : file string :=
  Content ("Template " ++ name ++ ": {task_description} / {issue_number}").

(** A checkout with an SSH GitHub origin; the [k]-th child ends with
    code [k]. *)
Definition world : World :=
  {| config_path := "/repo/.agent/config.yml";
     prompts_dir := "/repo/.agent/prompts";
     config_file := Content (YMap []);
     prompt_file := templates;
     git_origin := Some (ssh_url "acme" "widgets" ++ nl);
     child := fun k _ => Some (Z.of_nat k + 3)%Z |}.

(** The same checkout with the HTTPS form of the origin. *)
Definition world_https : World :=
  {| config_path := config_path world;
     prompts_dir := prompts_dir world;
     config_file := config_file world;
     prompt_file := prompt_file world;
     git_origin := Some (https_url "acme" "widgets" ++ nl);
     child := child world |}.

(** The same checkout with its origin on another host, in a repository
    called [github.com]. *)
Definition world_gitlab : World :=
  {| config_path := config_path world;
     prompts_dir := prompts_dir world;
     config_file := config_file world;
     prompt_file := prompt_file world;
     git_origin := Some (ssh_url_at "gitlab.com" "acme" "github.com" ++ nl);
     child := child world |}.

(** The same checkout with the origin of a pages repository. *)
Definition world_pages : World :=
  {| config_path := config_path world;
     prompts_dir := prompts_dir world;
     config_file := config_file world;
     prompt_file := prompt_file world;
     git_origin := Some (https_url "acme" "acme.github.io" ++ nl);
     child := child world |}.

(** The same checkout on a machine where the second child of a batch
    cannot be started. *)
Definition world_second_fails : World :=
  {| config_path := config_path world;
     prompts_dir := prompts_dir world;
     config_file := config_file world;
     prompt_file := prompt_file world;
     git_origin := git_origin world;
     child := fun k _ => if Nat.eqb k 1 then None else Some 0%Z |}.

(** The same checkout with an agent that always ends with 0. *)
Definition world_agent_ok : World :=
  {| config_path := config_path world;
     prompts_dir := prompts_dir world;
     config_file := config_file world;
     prompt_file := prompt_file world;
     git_origin := git_origin world;
     child := fun _ _ => Some 0%Z |}.

(** The same checkout without a remote: git prints nothing. *)
Definition world_no_remote : World :=
  {| config_path := config_path world;
     prompts_dir := prompts_dir world;
     config_file := config_file world;
     prompt_file := prompt_file world;
     git_origin := Some "";
     child := child world |}.

(** The same checkout without a configuration file. *)
Definition world_no_config : World :=
  {| config_path := config_path world;
     prompts_dir := prompts_dir world;
     config_file := Absent;
     prompt_file := prompt_file world;
     git_origin := git_origin world;
     child := child world |}.

(** The same checkout with a configuration file that is there and is not
    YAML. *)
Definition world_bad_yaml : World :=
  {| config_path := config_path world;
     prompts_dir := prompts_dir world;
     config_file := Faulty YAMLError;
     prompt_file := prompt_file world;
     git_origin := git_origin world;
     child := child world |}.

(** The same checkout without any prompt template. *)
Definition world_no_prompts : World :=
  {| config_path := config_path world;
     prompts_dir := prompts_dir world;
     config_file := config_file world;
     prompt_file := fun _ => Absent;
     git_origin := git_origin world;
     child := child world |}.

Definition invocation (cmd : string) (i p b : option string) : Invocation :=
  {| given_provider := None; given_print_only := false;
     given_command := Some cmd;
     given_issue := i; given_pr := p; given_issues := b;
     given_help := None |}.

(** [agent.py implement --issue 42] *)
Definition implement_42 : Invocation :=
  invocation "implement" (Some "42") None None.

(** [agent.py review --pr 7] *)
Definition review_7 : Invocation :=
  invocation "review" None (Some "7") None.

(** [agent.py batch --issues "1,2,3"] *)
Definition batch_123 : Invocation :=
  invocation "batch" None None (Some "1,2,3").

(** [agent.py --print-only batch --issues "1,2,3"] *)
Definition batch_123_print_only : Invocation :=
  {| given_provider := None; given_print_only := true;
     given_command := Some "batch";
     given_issue := None; given_pr := None; given_issues := Some "1,2,3";
     given_help := None |}.

(** [agent.py batch --issues "1,a"] *)
Definition batch_1a : Invocation :=
  invocation "batch" None None (Some "1,a").

(** [agent.py deploy] *)
Definition deploy : Invocation :=
  invocation "deploy" None None None.

(** [agent.py --provider ollama review --pr 7] *)
Definition ollama_review_7 : Invocation :=
  {| given_provider := Some "ollama"; given_print_only := false;
     given_command := Some "review";
     given_issue := None; given_pr := Some "7"; given_issues := None;
     given_help := None |}.

(** [agent.py -h] *)
Definition help_only : Invocation :=
  {| given_provider := None; given_print_only := false;
     given_command := None;
     given_issue := None; given_pr := None; given_issues := None;
     given_help := Some HelpGlobal |}.

(** [agent.py -h deploy] *)
Definition help_deploy : Invocation :=
  {| given_provider := None; given_print_only := false;
     given_command := Some "deploy";
     given_issue := None; given_pr := None; given_issues := None;
     given_help := Some HelpGlobal |}.

(** [agent.py review -h] *)
Definition review_help : Invocation :=
  {| given_provider := None; given_print_only := false;
     given_command := Some "review";
     given_issue := None; given_pr := None; given_issues := None;
     given_help := Some HelpBeforeOption |}.

(** [agent.py review --pr x -h] *)
Definition review_x_help : Invocation :=
  {| given_provider := None; given_print_only := false;
     given_command := Some "review";
     given_issue := None; given_pr := Some "x"; given_issues := None;
     given_help := Some HelpAfterOption |}.

End Sample.

(** * Properties *)

(** ** Equations of the effect monad *)

Lemma bind_pure {A B} (a : A) (f : A -> Proc B) :
  proc_bind (ret a) f = f a.
Proof. unfold proc_bind. simpl. symmetry. apply surjective_pairing. Qed.

(** Unfold one layer of the monad and of its primitives, nothing else. *)
Ltac step :=
  cbn [proc_bind ret emit print sys_exit raise or_raise attr parser_error
       fst snd app negb trace outcome].

(** A run that is [ready] is the run of its handler followed by
    [sys.exit]. *)
Lemma main_ready w inv args config :
  ready w inv args config ->
  main w inv =
  match dict_get commands (command args) with
  | Some h => rc <- h w args config ;; sys_exit rc
  | None => emit PrintHelp ;; sys_exit 1%Z
  end.
Proof.
  intros (Hp & Hc & Hv). unfold main. rewrite Hp. fold (ret args).
  rewrite bind_pure. unfold dispatch, load_config. rewrite Hc. cbv iota.
  rewrite bind_pure, Hv, String.eqb_refl. reflexivity.
Qed.

(** ** Strings *)

Lemma append_assoc (a b c : string) : (a ++ b) ++ c = a ++ b ++ c.
Proof. induction a as [|x a IH]; simpl; [reflexivity|]. rewrite IH. reflexivity. Qed.

Lemma append_nil_r (a : string) : a ++ "" = a.
Proof. induction a as [|x a IH]; simpl; [reflexivity|]. rewrite IH. reflexivity. Qed.

Lemma lacks_app c a b : lacks c (a ++ b) = lacks c a && lacks c b.
Proof.
  induction a as [|x a IH]; simpl; [reflexivity|].
  rewrite IH. apply andb_assoc.
Qed.

Lemma lstrip_blank pre s : blank pre = true -> lstrip (pre ++ s) = lstrip s.
Proof.
  induction pre as [|c pre IH]; simpl; [reflexivity|].
  intros H. apply andb_prop in H as [Hc Hp]. rewrite Hc. auto.
Qed.

Lemma rstrip_blank post : blank post = true -> rstrip post = "".
Proof.
  induction post as [|c post IH]; simpl; [reflexivity|].
  intros H. apply andb_prop in H as [Hc Hp]. rewrite (IH Hp), Hc. reflexivity.
Qed.

Lemma rstrip_app_blank s post :
  blank post = true -> rstrip (s ++ post) = rstrip s.
Proof.
  intros H. induction s as [|c s IH]; simpl.
  - apply rstrip_blank, H.
  - rewrite IH. reflexivity.
Qed.

(** A string that ends with a kept tail is kept whole. *)
Lemma rstrip_app_kept s tail c :
  rstrip (String c tail) = String c tail ->
  rstrip (s ++ String c tail) = s ++ String c tail.
Proof.
  intros H. induction s as [|x s IH]; [exact H|].
  cbn [append rstrip]. rewrite IH.
  destruct s; reflexivity.
Qed.

(** Blanks around a text that starts and ends with something else are all
    that [strip] removes. *)
Lemma strip_around pre post c body d tail :
  blank pre = true ->
  blank post = true ->
  isspace c = false ->
  rstrip (String d tail) = String d tail ->
  strip (pre ++ (String c body ++ String d tail) ++ post)
  = String c body ++ String d tail.
Proof.
  intros Hpre Hpost Hc Ht. unfold strip.
  rewrite lstrip_blank by exact Hpre.
  cbn [append lstrip]. rewrite Hc.
  change (String c ((body ++ String d tail) ++ post))
    with ((String c (body ++ String d tail)) ++ post).
  rewrite rstrip_app_blank by exact Hpost.
  change (String c (body ++ String d tail))
    with (String c body ++ String d tail).
  apply rstrip_app_kept, Ht.
Qed.

Lemma startswith_lacks c p s :
  startswith p s = true -> lacks c s = true -> lacks c p = true.
Proof.
  revert s. induction p as [|a p IH]; intros s; [reflexivity|].
  destruct s as [|b s]; [discriminate|]. cbn [startswith lacks].
  intros H L. apply andb_prop in H as [Hab Hp]. apply andb_prop in L as [Lb Ls].
  apply Ascii.eqb_eq in Hab. subst b. rewrite Lb. cbn [andb]. eauto.
Qed.

(** A text without the last character of the separator is one piece. *)
Lemma split_scan_lacks sep c cur s :
  lacks c sep = false ->
  lacks c s = true ->
  split_scan sep 0 cur s = [cur ++ s].
Proof.
  intros Hsep. revert cur. induction s as [|x s IH]; intros cur L.
  - cbn [split_scan]. rewrite append_nil_r. reflexivity.
  - cbn [split_scan].
    destruct (startswith sep (String x s)) eqn:E.
    + rewrite (startswith_lacks c _ _ E L) in Hsep. discriminate.
    + cbn [lacks] in L. apply andb_prop in L as [_ L].
      rewrite IH by exact L. rewrite append_assoc. reflexivity.
Qed.

(** Cutting at a one-character separator, up to its first occurrence. *)
Lemma split_scan_char c cur a b :
  lacks c a = true ->
  split_scan (String c "") 0 cur (a ++ String c b)
  = (cur ++ a) :: split_scan (String c "") 0 "" b.
Proof.
  revert cur. induction a as [|x a IH]; intros cur L.
  - cbn [append split_scan startswith]. rewrite Ascii.eqb_refl.
    cbn [andb String.length Nat.sub]. rewrite append_nil_r. reflexivity.
  - cbn [lacks] in L. apply andb_prop in L as [Lx L].
    cbn [append split_scan startswith].
    apply negb_true_iff in Lx. rewrite Lx. cbn [andb].
    rewrite IH by exact L. rewrite append_assoc. reflexivity.
Qed.

(** Deleting occurrences only takes characters away. *)
Lemma replace_scan_lacks c old s :
  lacks c s = true ->
  forall k, lacks c (replace_scan old "" k s) = true.
Proof.
  induction s as [|x s IH]; intros L k; [reflexivity|].
  cbn [lacks] in L. apply andb_prop in L as [Lx L].
  cbn [replace_scan]. destruct k as [|k]; [|auto].
  destruct (startswith old (String x s)).
  - cbn [append]. auto.
  - cbn [lacks]. rewrite Lx. cbn [andb]. auto.
Qed.

(** [replace] passes over a stretch without the first character of
    [old]. *)
Lemma replace_scan_skip c old new a s :
  lacks c a = true ->
  replace_scan (String c old) new 0 (a ++ s)
  = a ++ replace_scan (String c old) new 0 s.
Proof.
  induction a as [|x a IH]; intros L; [reflexivity|].
  cbn [lacks] in L. apply andb_prop in L as [Lx L].
  cbn [append replace_scan startswith].
  apply negb_true_iff in Lx. rewrite Lx. cbn [andb].
  rewrite IH by exact L. reflexivity.
Qed.

(** ** Argument parsing *)

(** [parse_args] returns silently, or reports one usage error and exits
    with status 2, or prints a help text and exits with status 0, which it
    only does when [-h] was given. *)
Lemma parse_args_cases inv :
  (exists args, parse_args inv = ([], Ret args)
                /\ given_command inv = Some (command args)
                /\ In (command args) subcommands)
  \/ (exists why, parse_args inv = ([UsageError why], Exit 2%Z))
  \/ (given_help inv <> None
      /\ (parse_args inv = ([PrintHelp], Exit 0%Z)
          \/ exists c, parse_args inv = ([PrintSubHelp c], Exit 0%Z))).
Proof.
  unfold parse_args, required_int, required_text, unknown_option,
    converted_int, main_help, sub_help.
  destruct inv as [gp gpo oc gi gr gb oh];
    cbn [given_command given_provider given_print_only given_issue given_pr
         given_issues given_help].
  destruct oh as [h|].
  - (* help was given *)
    assert (Some h <> None) as Hh by discriminate.
    destruct oc as [c|];
      [|right; right; split; [exact Hh|]; left; destruct h; reflexivity].
    destruct h;
      [right; right; split; [exact Hh|]; left; reflexivity| |].
    + destruct (String.eqb c "implement");
        [right; right; split; [exact Hh|]; right; eexists; reflexivity|].
      destruct (String.eqb c "review" || String.eqb c "security-review");
        [right; right; split; [exact Hh|]; right; eexists; reflexivity|].
      destruct (String.eqb c "batch");
        [right; right; split; [exact Hh|]; right; eexists; reflexivity|].
      right. left. eexists. reflexivity.
    + destruct (String.eqb c "implement").
      { destruct gi as [ti|]; [destruct (PyStr.int ti)|]; step;
          try (right; left; eexists; reflexivity);
          right; right; (split; [exact Hh|]); right; eexists; reflexivity. }
      destruct (String.eqb c "review" || String.eqb c "security-review").
      { destruct gr as [ti|]; [destruct (PyStr.int ti)|]; step;
          try (right; left; eexists; reflexivity);
          right; right; (split; [exact Hh|]); right; eexists; reflexivity. }
      destruct (String.eqb c "batch");
        [right; right; split; [exact Hh|]; right; eexists; reflexivity|].
      right. left. eexists. reflexivity.
  - (* no help *)
    destruct oc as [c|]; [|right; left; eexists; reflexivity].
    destruct (String.eqb_spec c "implement") as [->|_].
    { destruct gi as [ti|]; [destruct (PyStr.int ti)|]; step;
        try (right; left; eexists; reflexivity).
      destruct gr, gb; step; try (right; left; eexists; reflexivity).
      left; eexists; repeat split; simpl; auto. }
    destruct (String.eqb_spec c "review") as [->|_].
    { destruct gr as [ti|]; [destruct (PyStr.int ti)|]; step;
        try (right; left; eexists; reflexivity).
      destruct gi, gb; step; try (right; left; eexists; reflexivity).
      left; eexists; repeat split; simpl; auto. }
    destruct (String.eqb_spec c "security-review") as [->|_].
    { destruct gr as [ti|]; [destruct (PyStr.int ti)|]; step;
        try (right; left; eexists; reflexivity).
      destruct gi, gb; step; try (right; left; eexists; reflexivity).
      left; eexists; repeat split; simpl; auto. }
    destruct (String.eqb_spec c "batch") as [->|_].
    { destruct gb as [ti|]; step; try (right; left; eexists; reflexivity).
      destruct gi, gr; step; try (right; left; eexists; reflexivity).
      left; eexists; repeat split; simpl; auto. }
    right; left; eexists; reflexivity.
Qed.

(** [parse_args] hands a namespace back only when no help was asked
    for. *)
Lemma parse_args_ret_no_help inv t args :
  parse_args inv = (t, Ret args) -> given_help inv = None.
Proof.
  intros H.
  destruct (parse_args_cases inv)
    as [_|[(why & E)|(_ & [E|(c & E)])]];
    try (rewrite E in H; discriminate H).
  destruct (given_help inv) as [h|] eqn:Eh; [exfalso|reflexivity].
  revert H. unfold parse_args, main_help, sub_help, converted_int.
  rewrite Eh.
  destruct (given_command inv) as [c|]; [|destruct h; discriminate].
  destruct h; try discriminate.
  - destruct (String.eqb c "implement"); [discriminate|].
    destruct (String.eqb c "review" || String.eqb c "security-review");
      [discriminate|].
    destruct (String.eqb c "batch"); discriminate.
  - destruct (String.eqb c "implement").
    { destruct (given_issue inv) as [ti|]; [destruct (PyStr.int ti)|];
        discriminate. }
    destruct (String.eqb c "review" || String.eqb c "security-review").
    { destruct (given_pr inv) as [ti|]; [destruct (PyStr.int ti)|];
        discriminate. }
    destruct (String.eqb c "batch"); discriminate.
Qed.

(** The whole of a run, once the command line has parsed, in terms of
    [dispatch]. *)
Lemma main_parsed w inv args :
  parse_args inv = ([], Ret args) -> main w inv = dispatch w args.
Proof.
  intros Hp. unfold main. rewrite Hp. fold (ret args). apply bind_pure.
Qed.

(** How far a run gets: to the dispatcher, with the namespace of a command
    line without [-h]; or not past the argument parser, which ends it with
    a usage error or with a help text. *)
Lemma main_cases w inv :
  (exists args,
     parse_args inv = ([], Ret args)
     /\ given_help inv = None
     /\ given_command inv = Some (command args)
     /\ In (command args) subcommands
     /\ main w inv = dispatch w args)
  \/ (exists why, main w inv = ([UsageError why], Exit 2%Z))
  \/ (given_help inv <> None /\ help_run (main w inv)).
Proof.
  destruct (parse_args_cases inv)
    as [(args & Hp & Hg & Hin)|[(why & Hp)|(Hh & [Hp|(c & Hp)])]].
  - left. exists args. repeat split; auto.
    + apply (parse_args_ret_no_help _ _ _ Hp).
    + apply main_parsed, Hp.
  - right. left. exists why. unfold main. rewrite Hp. reflexivity.
  - right. right. split; [exact Hh|]. left. unfold main. rewrite Hp.
    reflexivity.
  - right. right. split; [exact Hh|]. right. exists c. unfold main.
    rewrite Hp. reflexivity.
Qed.

(** A help text is all that a help run leaves behind. *)
Lemma help_run_quiet {A} (p : Proc A) :
  help_run p ->
  spawned (trace p) = [] /\ outcome p = Exit 0%Z.
Proof. intros [->|(c & ->)]; split; reflexivity. Qed.

(** ** Reading traces *)

Lemma spawned_app t1 t2 : spawned (t1 ++ t2) = (spawned t1 ++ spawned t2)%list.
Proof.
  induction t1 as [|e t1 IH]; [reflexivity|].
  destruct e; cbn [spawned app]; rewrite ?IH; reflexivity.
Qed.

Lemma agent_spawned_app t1 t2 :
  agent_spawned (t1 ++ t2) = (agent_spawned t1 ++ agent_spawned t2)%list.
Proof. unfold agent_spawned. rewrite spawned_app. apply filter_app. Qed.

Lemma prompts_sent_app t1 t2 :
  prompts_sent (t1 ++ t2) = (prompts_sent t1 ++ prompts_sent t2)%list.
Proof. unfold prompts_sent. rewrite agent_spawned_app. apply map_app. Qed.

Lemma started_app t1 t2 : started (t1 ++ t2) = (started t1 ++ started t2)%list.
Proof.
  induction t1 as [|e t1 IH]; [reflexivity|].
  destruct e; cbn [started app]; rewrite ?IH; reflexivity.
Qed.

Lemma waited_app t1 t2 : waited (t1 ++ t2) = (waited t1 ++ waited t2)%list.
Proof.
  induction t1 as [|e t1 IH]; [reflexivity|].
  destruct e; cbn [waited app]; rewrite ?IH; reflexivity.
Qed.

Lemma spawned_in_run t cmd : In (Run cmd) t -> In cmd (spawned t).
Proof.
  induction t as [|e t IH]; [intros []|].
  intros [->|H]; [left; reflexivity|].
  destruct e; cbn [spawned]; auto using in_cons.
Qed.

(** ** The git remote lookup *)

(** Cutting a URL up prints nothing and starts nothing: it returns or
    raises. *)
Lemma parse_github_url_pure url :
  (exists owner repo, parse_github_url url = ([], Ret (Some owner, Some repo)))
  \/ (exists e, parse_github_url url = ([], Raise e)).
Proof.
  unfold parse_github_url, second, unpack2.
  destruct (startswith "git@" url).
  - destruct (nth_error (split ":" url) 1) as [path|];
      [|right; eexists; reflexivity].
    cbn [or_raise]. rewrite bind_pure.
    destruct (split "/" (replace ".git" "" path)) as [|a [|b [|c rest]]];
      try (right; eexists; reflexivity).
    left. do 2 eexists. reflexivity.
  - destruct (nth_error (split "github.com/" url) 1) as [path|];
      [|right; eexists; reflexivity].
    cbn [or_raise]. rewrite bind_pure.
    destruct (split "/" (replace ".git" "" path)) as [|a [|b [|c rest]]];
      try (right; eexists; reflexivity).
    left. do 2 eexists. reflexivity.
Qed.

(** [get_repo_info] always returns: it runs git once and whatever goes
    wrong after that is swallowed. *)
Lemma get_repo_info_returns w :
  get_repo_info w = ([Run git_cmd], Ret (repo_info w)).
Proof.
  unfold repo_info. 
  assert (exists r, get_repo_info w = ([Run git_cmd], Ret r)) as [r E].
  { unfold get_repo_info, git_remote_url.
    destruct (git_origin w) as [out|]; [|eexists; reflexivity].
    cbn [or_raise]. 
    destruct (contains "github.com" (strip out)) eqn:Ec.
    - destruct (parse_github_url_pure (strip out)) as [(o & r & E)|(e & E)].
      + exists (Some o, Some r). unfold try_except, proc_bind. cbn -[strip contains parse_github_url]. rewrite Ec, E. reflexivity.
      + exists (None, None). unfold try_except, proc_bind. cbn -[strip contains parse_github_url]. rewrite Ec, E. reflexivity.
    - exists (None, None). unfold try_except, proc_bind. cbn -[strip contains parse_github_url]. rewrite Ec. reflexivity. }
  rewrite E. reflexivity.
Qed.

(** ** The single-task handlers *)

Lemma run_claude_code_eq w prompt po :
  run_claude_code w prompt po
  = (claude_events prompt po, child_result w 0 (claude_cmd prompt po)).
Proof.
  unfold run_claude_code, subprocess_run, claude_events, child_result, claude_cmd.
  destruct (child w 0 _); reflexivity.
Qed.

Lemma cmd_implement_eq w args config :
  cmd_implement w args config =
  match issue args with
  | None => ([Run git_cmd], Raise AttributeError)
  | Some n =>
      match prompt_file w "implement" with
      | Absent =>
          ([Run git_cmd;
            Print ("Prompt not found: " ++ prompts_dir w ++ "/implement.md")],
           Exit 1%Z)
      | Faulty e => ([Run git_cmd], Raise e)
      | Content base =>
          let prompt :=
            implement_prompt (issue_ref (fst (repo_info w)) n) base n in
          (Run git_cmd :: claude_events prompt (print_only args),
           child_result w 0 (claude_cmd prompt (print_only args)))
      end
  end.
Proof.
  unfold cmd_implement. rewrite get_repo_info_returns.
  destruct (repo_info w) as [owner repo]. 
  destruct (issue args) as [n|]; [|reflexivity].
  unfold load_prompt. cbn [attr or_raise fst].
  destruct (prompt_file w "implement") as [|e|base]; try reflexivity.
  unfold proc_bind at 1. cbn [fst snd ret app].
  rewrite !bind_pure, run_claude_code_eq. reflexivity.
Qed.

Lemma cmd_review_eq w args config :
  cmd_review w args config =
  match prompt_file w "review" with
  | Absent =>
      ([Print ("Prompt not found: " ++ prompts_dir w ++ "/review.md")],
       Exit 1%Z)
  | Faulty e => ([], Raise e)
  | Content template =>
      match pr args with
      | None => ([], Raise AttributeError)
      | Some n =>
          (claude_events (review_prompt template n) (print_only args),
           child_result w 0
             (claude_cmd (review_prompt template n) (print_only args)))
      end
  end.
Proof.
  unfold cmd_review, load_prompt.
  destruct (prompt_file w "review") as [|e|template]; try reflexivity.
  rewrite bind_pure. destruct (pr args) as [n|]; [|reflexivity].
  cbn [attr or_raise]. rewrite bind_pure. apply run_claude_code_eq.
Qed.

Lemma cmd_security_review_eq w args config :
  cmd_security_review w args config =
  match prompt_file w "security" with
  | Absent =>
      ([Print ("Prompt not found: " ++ prompts_dir w ++ "/security.md")],
       Exit 1%Z)
  | Faulty e => ([], Raise e)
  | Content template =>
      match pr args with
      | None => ([], Raise AttributeError)
      | Some n =>
          (claude_events (security_prompt template n) (print_only args),
           child_result w 0
             (claude_cmd (security_prompt template n) (print_only args)))
      end
  end.
Proof.
  unfold cmd_security_review, load_prompt.
  destruct (prompt_file w "security") as [|e|template]; try reflexivity.
  rewrite bind_pure. destruct (pr args) as [n|]; [|reflexivity].
  cbn [attr or_raise]. rewrite bind_pure. apply run_claude_code_eq.
Qed.

(** ** The batch handler *)

(** The list comprehension prints nothing: it returns the numbers, one per
    token, or raises [ValueError]. *)
Lemma parse_issues_cases tokens :
  (exists todo, parse_issues tokens = ([], Ret todo)
                /\ List.length todo = List.length tokens)
  \/ parse_issues tokens = ([], Raise ValueError).
Proof.
  induction tokens as [|t rest IH].
  - left. exists []. split; reflexivity.
  - cbn [parse_issues]. destruct (PyStr.int (strip t)) as [n|]; [|right; reflexivity].
    cbn [or_raise]. rewrite bind_pure.
    destruct IH as [(todo & E & L)|E]; rewrite E.
    + left. exists (n :: todo). split; [reflexivity|]. simpl. congruence.
    + right. reflexivity.
Qed.

Lemma start_all_ok w todo :
  forall k, all_start w k todo = true ->
  start_all w k todo = (start_events todo, Ret (batch_processes w k todo)).
Proof.
  induction todo as [|issue rest IH]; intros k H.
  - reflexivity.
  - cbn [all_start] in H. cbn [start_all batch_processes]. unfold popen, batch_rc.
    destruct (child w k (batch_cmd issue)) as [rc|]; [|discriminate].
    rewrite (IH (S k) H). step. rewrite app_nil_r. reflexivity.
Qed.

Lemma wait_all_eq processes :
  wait_all processes = (wait_events processes, Ret tt).
Proof.
  induction processes as [|[issue proc] rest IH]; [reflexivity|].
  cbn [wait_all]. rewrite IH. reflexivity.
Qed.

(** The whole of a batch in which the list parses and every child starts. *)
Lemma cmd_batch_ok w args config text todo :
  issues args = Some text ->
  parse_issues (split "," text) = ([], Ret todo) ->
  all_start w 0 todo = true ->
  cmd_batch w args config
  = ((Print ("Dispatching " ++ str (Z.of_nat (List.length todo)) ++ " tasks...")
       :: start_events todo
       ++ Print (nl ++ "Waiting for all tasks to complete...")
       :: wait_events (batch_processes w 0 todo))%list,
     Ret 0%Z).
Proof.
  intros Ht Hp Hs. unfold cmd_batch. rewrite Ht. cbn [attr or_raise].
  rewrite bind_pure, Hp. fold (ret todo). rewrite bind_pure.
  rewrite (start_all_ok _ _ _ Hs). step. rewrite wait_all_eq. step.
  rewrite app_nil_r. reflexivity.
Qed.

Lemma start_events_cons issue rest :
  start_events (issue :: rest)
  = Print ("  Starting issue #" ++ str issue ++ "...")
      :: Popen (batch_cmd issue) :: start_events rest.
Proof. reflexivity. Qed.

Lemma wait_events_cons ip rest :
  wait_events (ip :: rest)
  = Wait (pid (snd ip))
      :: Print ("  Issue #" ++ str (fst ip) ++ ": "
                ++ (if Z.eqb (returncode (snd ip)) 0 then "done" else "failed"))
      :: wait_events rest.
Proof. reflexivity. Qed.

Lemma started_start_events todo : started (start_events todo) = map batch_cmd todo.
Proof.
  induction todo as [|i rest IH]; [reflexivity|].
  rewrite start_events_cons. cbn [started map]. rewrite IH. reflexivity.
Qed.

Lemma waited_start_events todo : waited (start_events todo) = [].
Proof.
  induction todo as [|i rest IH]; [reflexivity|].
  rewrite start_events_cons. cbn [waited]. exact IH.
Qed.

Lemma reports_start_events todo t :
  reports (start_events todo ++ t) = reports t.
Proof.
  induction todo as [|i rest IH]; [reflexivity|].
  rewrite start_events_cons. cbn [reports app]. exact IH.
Qed.

Lemma started_wait_events processes : started (wait_events processes) = [].
Proof.
  induction processes as [|p rest IH]; [reflexivity|].
  rewrite wait_events_cons. cbn [started]. exact IH.
Qed.

Lemma waited_wait_events processes :
  waited (wait_events processes) = map (fun ip => pid (snd ip)) processes.
Proof.
  induction processes as [|p rest IH]; [reflexivity|].
  rewrite wait_events_cons. cbn [waited map]. rewrite IH. reflexivity.
Qed.


Lemma batch_processes_pids w todo :
  forall k, map (fun ip => pid (snd ip)) (batch_processes w k todo)
            = seq k (List.length todo).
Proof.
  induction todo as [|i rest IH]; intros k; [reflexivity|].
  cbn [batch_processes map seq List.length snd pid]. rewrite IH. reflexivity.
Qed.


(** ** Exit codes *)

Lemma agent_spawned_claude_events prompt po :
  agent_spawned (claude_events prompt po) = [claude_cmd prompt po].
Proof. destruct po; reflexivity. Qed.

Lemma agent_spawned_git t : agent_spawned (Run git_cmd :: t) = agent_spawned t.
Proof. reflexivity. Qed.

Lemma exit_with_child {A} w t cmd :
  proc_bind (t, child_result w 0 cmd) (fun rc => @sys_exit A rc)
  = (t, match child w 0 cmd with
        | Some rc => Exit rc
        | None => Raise OSError
        end).
Proof.
  unfold child_result. destruct (child w 0 cmd); cbn [proc_bind fst snd sys_exit].
  - rewrite app_nil_r. reflexivity.
  - reflexivity.
Qed.


Lemma main_batch_ok w inv args config text todo :
  ready w inv args config ->
  command args = "batch" ->
  issues args = Some text ->
  parse_issues (split "," text) = ([], Ret todo) ->
  all_start w 0 todo = true ->
  main w inv
  = ((Print ("Dispatching " ++ str (Z.of_nat (List.length todo)) ++ " tasks...")
       :: start_events todo
       ++ Print (nl ++ "Waiting for all tasks to complete...")
       :: wait_events (batch_processes w 0 todo))%list,
     Exit 0%Z).
Proof.
  intros Hr Hc Ht Hp Hs. rewrite (main_ready _ _ _ _ Hr), Hc.
  change (dict_get commands "batch") with (Some cmd_batch). cbv iota.
  rewrite (cmd_batch_ok _ _ _ _ _ Ht Hp Hs). step. rewrite app_nil_r.
  reflexivity.
Qed.



(** ** One child per issue *)



(** ** What a prompt depends on *)

Lemma trace_bind {A B} (m : Proc A) (f : A -> Proc B) :
  trace (proc_bind m f)
  = (trace m ++ match outcome m with
                | Ret a => trace (f a)
                | _ => []
                end)%list.
Proof.
  unfold proc_bind, trace, outcome. destruct (snd m); cbn [fst];
    rewrite ?app_nil_r; reflexivity.
Qed.

Lemma trace_bind_ret {A B} (m : Proc A) (g : A -> B) :
  trace (proc_bind m (fun x => ret (g x))) = trace m.
Proof.
  rewrite trace_bind. destruct (outcome m); cbn [ret trace fst];
    apply app_nil_r.
Qed.

Lemma prompts_sent_wait_events processes :
  prompts_sent (wait_events processes) = [].
Proof.
  induction processes as [|p rest IH]; [reflexivity|].
  rewrite wait_events_cons. exact IH.
Qed.

Lemma popen_eq w k cmd :
  popen w k cmd
  = ([Popen cmd],
     match child w k cmd with
     | Some rc => Ret {| pid := k; returncode := rc |}
     | None => Raise OSError
     end).
Proof. unfold popen. destruct (child w k cmd); reflexivity. Qed.

(** Every prompt the first loop of the batch hands out is the batch prompt
    of the issue at the same place in the list. *)
Lemma start_all_prompts w todo :
  forall k j p,
    nth_error (prompts_sent (trace (start_all w k todo))) j = Some p ->
    nth_error (map batch_prompt todo) j = Some p.
Proof.
  induction todo as [|issue rest IH]; intros k j p.
  - destruct j; discriminate.
  - cbn [start_all]. rewrite popen_eq.
    destruct (child w k (batch_cmd issue)) as [rc|].
    + rewrite !trace_bind. cbn [print emit ret trace outcome fst snd app].
      rewrite trace_bind_ret.
      change (prompts_sent (Print ?s :: Popen (batch_cmd issue) :: ?t))
        with (batch_prompt issue :: prompts_sent t).
      destruct j as [|j]; [intros H; exact H|].
      cbn [nth_error map]. apply IH.
    + cbn [proc_bind print emit trace fst snd app].
      change (prompts_sent [Print ?s; Popen (batch_cmd issue)])
        with [batch_prompt issue].
      destruct j as [|j]; [intros H; exact H|]. destruct j; discriminate.
Qed.

Lemma cmd_batch_prompts w args config j p :
  nth_error (prompts_sent (trace (cmd_batch w args config))) j = Some p ->
  exists text todo,
    issues args = Some text
    /\ parse_issues (split "," text) = ([], Ret todo)
    /\ nth_error (map batch_prompt todo) j = Some p.
Proof.
  unfold cmd_batch. destruct (issues args) as [text|];
    [|destruct j; discriminate].
  cbn [attr or_raise]. rewrite bind_pure.
  destruct (parse_issues_cases (split "," text)) as [(todo & E & _)|E];
    rewrite E; [|destruct j; discriminate].
  fold (ret todo). rewrite bind_pure.
  rewrite trace_bind. cbn [print emit trace outcome fst snd app].
  rewrite trace_bind.
  change (prompts_sent (Print ?s :: ?t)) with (prompts_sent t).
  rewrite prompts_sent_app.
  assert (prompts_sent
            match outcome (start_all w 0 todo) with
            | Ret a =>
                trace (print (nl ++ "Waiting for all tasks to complete...");;
                       wait_all a;; ret 0%Z)
            | _ => []
            end = []) as ->.
  { destruct (outcome (start_all w 0 todo)) as [procs| |]; try reflexivity.
    rewrite trace_bind. cbn [print emit trace outcome fst snd app].
    rewrite wait_all_eq.
    change (prompts_sent (Print ?s :: ?t)) with (prompts_sent t).
    cbn [proc_bind ret trace fst snd]. rewrite app_nil_r.
    apply prompts_sent_wait_events. }
  rewrite app_nil_r. intros H. exists text, todo.
  split; [reflexivity|split; [exact E|]].
  eapply start_all_prompts, H.
Qed.

Lemma prompts_sent_claude_events prompt po :
  prompts_sent (claude_events prompt po) = [prompt].
Proof. destruct po; reflexivity. Qed.

Lemma nth_error_singleton {A} (x y : A) j :
  nth_error [x] j = Some y -> y = x.
Proof. destruct j as [|[|j]]; simpl; congruence. Qed.

(** Every prompt a run hands to the agent is the prompt of its subcommand,
    built from that subcommand's template and arguments. *)
Lemma prompts_sent_main w inv args j p :
  parse_args inv = ([], Ret args) ->
  nth_error (prompts_sent (trace (main w inv))) j = Some p ->
  (command args = "implement"
   /\ exists n base,
        issue args = Some n
        /\ prompt_file w "implement" = Content base
        /\ p = implement_prompt (issue_ref (fst (repo_info w)) n) base n)
  \/ (command args = "review"
      /\ exists n template,
           pr args = Some n
           /\ prompt_file w "review" = Content template
           /\ p = review_prompt template n)
  \/ (command args = "security-review"
      /\ exists n template,
           pr args = Some n
           /\ prompt_file w "security" = Content template
           /\ p = security_prompt template n)
  \/ (command args = "batch"
      /\ exists text todo,
           issues args = Some text
           /\ parse_issues (split "," text) = ([], Ret todo)
           /\ nth_error (map batch_prompt todo) j = Some p).
Proof.
  intros Hp. rewrite (main_parsed _ _ _ Hp).
  destruct (parse_args_cases inv)
    as [(a & Ha & _ & Hin)|[(why & Hw)|(_ & [Hw|(c' & Hw)])]];
    [|congruence..].
  assert (a = args) as -> by congruence.
  unfold dispatch, load_config.
  destruct (config_file w) as [|e|config]; try (destruct j; discriminate).
  rewrite bind_pure.
  destruct (negb (provider args =? "claude-code"));
    [destruct j; discriminate|].
  destruct Hin as [E|[E|[E|[E|[]]]]]; rewrite <- E.
  - change (dict_get commands "implement") with (Some cmd_implement).
    cbv iota. rewrite cmd_implement_eq.
    destruct (issue args) as [n|]; [|destruct j; discriminate].
    destruct (prompt_file w "implement") as [|e|base];
      try (destruct j; discriminate).
    cbv zeta. rewrite exit_with_child. cbn [trace fst].
    change (prompts_sent (Run git_cmd :: ?t)) with (prompts_sent t).
    rewrite prompts_sent_claude_events. intros H.
    apply nth_error_singleton in H. left. split; [reflexivity|].
    exists n, base. auto.
  - change (dict_get commands "review") with (Some cmd_review).
    cbv iota. rewrite cmd_review_eq.
    destruct (prompt_file w "review") as [|e|template];
      try (destruct j; discriminate).
    destruct (pr args) as [n|]; [|destruct j; discriminate].
    rewrite exit_with_child. cbn [trace fst].
    rewrite prompts_sent_claude_events. intros H.
    apply nth_error_singleton in H. right. left. split; [reflexivity|].
    exists n, template. auto.
  - change (dict_get commands "security-review")
      with (Some cmd_security_review).
    cbv iota. rewrite cmd_security_review_eq.
    destruct (prompt_file w "security") as [|e|template];
      try (destruct j; discriminate).
    destruct (pr args) as [n|]; [|destruct j; discriminate].
    rewrite exit_with_child. cbn [trace fst].
    rewrite prompts_sent_claude_events. intros H.
    apply nth_error_singleton in H. right. right. left.
    split; [reflexivity|]. exists n, template. auto.
  - change (dict_get commands "batch") with (Some cmd_batch).
    cbv iota. rewrite trace_bind.
    assert (match outcome (cmd_batch w args config) with
            | Ret a => trace (@sys_exit Empty_set a)
            | _ => []
            end = []) as ->
      by (destruct (outcome (cmd_batch w args config)); reflexivity).
    rewrite app_nil_r. intros H. right. right. right.
    split; [reflexivity|]. eapply cmd_batch_prompts, H.
Qed.

(** C3, as stated, fails for implement: with the same template and the same
    command line, a checkout whose origin is on GitHub is told to read
    "#42" and one without a remote is told to read "issue 42". *)
Lemma C3_prompt_purity_counterexample :
  (forall name,
     prompt_file Sample.world name = prompt_file Sample.world_no_remote name)
  /\ prompts_sent (trace (main Sample.world Sample.implement_42))
     = [implement_prompt "#42"
          "Template implement: {task_description} / {issue_number}" 42]
  /\ prompts_sent (trace (main Sample.world_no_remote Sample.implement_42))
     = [implement_prompt "issue 42"
          "Template implement: {task_description} / {issue_number}" 42]
  /\ prompts_sent (trace (main Sample.world Sample.implement_42))
     <> prompts_sent (trace (main Sample.world_no_remote Sample.implement_42)).
Proof.
  split; [reflexivity|split; [reflexivity|split; [reflexivity|]]].
  vm_compute. discriminate.
Qed.

(** C3, amended: the prompts of review, security-review and batch are
    determined by the template text and the command line.  The prompt of
    implement depends on one thing more, whether the git origin lookup
    found an owner: two runs of the same command line in worlds with the
    same templates, and for implement the same answer to that question,
    hand the same prompts to the agent, as far as both get. *)
Theorem C3_prompt_determined w1 w2 inv :
  (forall name, prompt_file w1 name = prompt_file w2 name) ->
  (given_command inv = Some "implement" ->
   truthy (fst (repo_info w1)) = truthy (fst (repo_info w2))) ->
  forall j p1 p2,
    nth_error (prompts_sent (trace (main w1 inv))) j = Some p1 ->
    nth_error (prompts_sent (trace (main w2 inv))) j = Some p2 ->
    p1 = p2.
Proof.
  intros Hf Ho j p1 p2 H1 H2.
  destruct (parse_args_cases inv)
    as [(args & Hp & Hg & _)|[(why & Hw)|(_ & [Hw|(c' & Hw)])]].
  - apply (prompts_sent_main _ _ _ _ _ Hp) in H1.
    apply (prompts_sent_main _ _ _ _ _ Hp) in H2.
    destruct H1 as [(C1 & n1 & b1 & I1 & F1 & ->)
                   |[(C1 & n1 & b1 & I1 & F1 & ->)
                   |[(C1 & n1 & b1 & I1 & F1 & ->)
                   |(C1 & t1 & d1 & I1 & P1 & N1)]]];
    destruct H2 as [(C2 & n2 & b2 & I2 & F2 & ->)
                   |[(C2 & n2 & b2 & I2 & F2 & ->)
                   |[(C2 & n2 & b2 & I2 & F2 & ->)
                   |(C2 & t2 & d2 & I2 & P2 & N2)]]];
    try (rewrite C1 in C2; discriminate C2).
    + rewrite Hf, F2 in F1. inversion F1; subst.
      assert (n1 = n2) as -> by congruence.
      unfold issue_ref. rewrite Ho by congruence. reflexivity.
    + rewrite Hf, F2 in F1. inversion F1; subst.
      assert (n1 = n2) as -> by congruence. reflexivity.
    + rewrite Hf, F2 in F1. inversion F1; subst.
      assert (n1 = n2) as -> by congruence. reflexivity.
    + assert (t1 = t2) as -> by congruence.
      assert (d1 = d2) as -> by congruence. congruence.
  - unfold main in H1. rewrite Hw in H1. destruct j; discriminate H1.
  - unfold main in H1. rewrite Hw in H1. destruct j; discriminate H1.
  - unfold main in H1. rewrite Hw in H1. destruct j; discriminate H1.
Qed.

(** The SSH and the HTTPS checkout both find an owner: same prompt. *)
Lemma C3_prompt_determined_witness :
  truthy (fst (repo_info Sample.world))
  = truthy (fst (repo_info Sample.world_https))
  /\ nth_error (prompts_sent (trace (main Sample.world Sample.implement_42))) 0
     = Some (implement_prompt "#42" "Template implement: {task_description} / {issue_number}" 42)
  /\ nth_error
       (prompts_sent (trace (main Sample.world_https Sample.implement_42))) 0
     = Some (implement_prompt (issue_ref (Some "acme") 42)
               "Template implement: {task_description} / {issue_number}" 42)
  /\ implement_prompt "#42"
       "Template implement: {task_description} / {issue_number}" 42
     = implement_prompt (issue_ref (Some "acme") 42)
         "Template implement: {task_description} / {issue_number}" 42.
Proof.
  split; [reflexivity|split; [reflexivity|split; [reflexivity|]]].
  refine (C3_prompt_determined Sample.world Sample.world_https
            Sample.implement_42 _ _ 0 _ _ _ _).
  - reflexivity.
  - reflexivity.
  - reflexivity.
  - reflexivity.
Defined.

(** ** Unknown subcommands *)

(** The dispatcher's fallback, seen from [dispatch]: a command that is not
    in the dictionary prints the help and exits with 1. *)
Lemma dispatch_fallback w args config :
  config_file w = Content config ->
  provider args = "claude-code" ->
  dict_get commands (command args) = None ->
  dispatch w args = ([PrintHelp], Exit 1%Z).
Proof.
  intros Hc Hv Hd. unfold dispatch, load_config. rewrite Hc. cbv iota.
  rewrite bind_pure, Hv, String.eqb_refl, Hd. reflexivity.
Qed.

Lemma dict_get_commands_none c :
  ~ In c subcommands -> dict_get commands c = None.
Proof.
  intros H. unfold commands, dict_get.
  repeat match goal with
         | |- context [String.eqb ?k c] =>
             destruct (String.eqb_spec k c) as [<-|_];
             [exfalso; apply H; simpl; tauto|]
         end.
  reflexivity.
Qed.

(** A word that is not a registered subcommand fails every test of
    [parse_args]. *)
Lemma unknown_choice c :
  ~ In c subcommands ->
  String.eqb c "implement" = false
  /\ (String.eqb c "review" || String.eqb c "security-review") = false
  /\ String.eqb c "batch" = false.
Proof.
  intros H.
  destruct (String.eqb_spec c "implement") as [->|_];
    [exfalso; apply H; simpl; tauto|].
  destruct (String.eqb_spec c "review") as [->|_];
    [exfalso; apply H; simpl; tauto|].
  destruct (String.eqb_spec c "security-review") as [->|_];
    [exfalso; apply H; simpl; tauto|].
  destruct (String.eqb_spec c "batch") as [->|_];
    [exfalso; apply H; simpl; tauto|].
  auto.
Qed.

(** C4, as stated, fails: [agent.py deploy] is refused by the argument
    parser with a usage error and exit status 2; the help is not printed
    and the exit status is not 1. *)
Lemma C4_unknown_command_counterexample :
  ~ In "deploy" subcommands
  /\ main Sample.world Sample.deploy
     = ([UsageError (InvalidChoice "deploy")], Exit 2%Z)
  /\ ~ (In PrintHelp (trace (main Sample.world Sample.deploy))
        /\ outcome (main Sample.world Sample.deploy) = Exit 1%Z).
Proof.
  split; [|split].
  - simpl. intros [H|[H|[H|[H|[]]]]]; discriminate H.
  - reflexivity.
  - intros [_ H]. discriminate H.
Qed.

(** C4, amended: an invocation whose subcommand is missing or is not one of
    implement, review, security-review, batch never reaches the dispatcher,
    whatever the world.  When [-h] is not read by the main parser (it is
    absent, or it stands after the subcommand word), the argument parser
    reports a usage error, "command required" when the word is missing and
    "invalid choice" when it is unknown, and the program exits with status
    2.  When [-h] is read by the main parser, the help of the main parser
    is printed and the program exits with 0.  In neither case is the exit
    status 1.  The dispatcher's own fallback (print the help, exit with 1)
    is what [dispatch] does for a command outside its dictionary, and
    [parse_args] never returns such a command. *)
Theorem C4_unknown_command_rejected_by_parser w inv args config :
  ((forall c, given_command inv = Some c -> ~ In c subcommands) ->
   (help_first inv = false ->
    exists why,
      main w inv = ([UsageError why], Exit 2%Z)
      /\ match given_command inv with
         | None => why = CommandRequired
         | Some c => why = InvalidChoice c
         end)
   /\ (help_first inv = true -> main w inv = ([PrintHelp], Exit 0%Z))
   /\ outcome (main w inv) <> Exit 1%Z)
  /\ (config_file w = Content config ->
      provider args = "claude-code" ->
      ~ In (command args) subcommands ->
      dispatch w args = ([PrintHelp], Exit 1%Z))
  /\ (forall t, parse_args inv = (t, Ret args) ->
      In (command args) subcommands).
Proof.
  split; [|split].
  - intros Hc. unfold help_first, main, parse_args.
    destruct (given_command inv) as [c|] eqn:Ec.
    + destruct (unknown_choice c (Hc c eq_refl)) as (E1 & E2 & E3).
      destruct (given_help inv) as [[| |]|]; cbv iota beta;
        rewrite ?E1, ?E2, ?E3;
        (split; [intros H; try discriminate H; eexists; split; reflexivity|]);
        (split; [intros H; try discriminate H; reflexivity|]);
        intros H; discriminate H.
    + destruct (given_help inv) as [[| |]|]; cbv iota beta;
        (split; [intros H; try discriminate H; eexists; split; reflexivity|]);
        (split; [intros H; try discriminate H; reflexivity|]);
        intros H; discriminate H.
  - intros Hc Hv Hn. apply dispatch_fallback with config; auto.
    apply dict_get_commands_none, Hn.
  - intros t Hp.
    destruct (parse_args_cases inv)
      as [(a & Ha & _ & Hin)|[(why & Hw)|(_ & [Hw|(c' & Hw)])]].
    + rewrite Ha in Hp. inversion Hp; subst. exact Hin.
    + rewrite Hw in Hp. discriminate Hp.
    + rewrite Hw in Hp. discriminate Hp.
    + rewrite Hw in Hp. discriminate Hp.
Qed.

(** [agent.py deploy], [agent.py -h deploy], and the dispatcher handed the
    command [deploy]. *)
Lemma C4_unknown_command_witness :
  (exists why,
     main Sample.world Sample.deploy = ([UsageError why], Exit 2%Z)
     /\ why = InvalidChoice "deploy")
  /\ main Sample.world Sample.help_deploy = ([PrintHelp], Exit 0%Z)
  /\ dispatch Sample.world
       {| provider := "claude-code"; print_only := false;
          command := "deploy"; issue := None; pr := None; issues := None |}
     = ([PrintHelp], Exit 1%Z).
Proof.
  assert (forall c, Some "deploy" = Some c -> ~ In c subcommands) as Hd.
  { intros c Hc. inversion Hc; subst. simpl.
    intros [H|[H|[H|[H|[]]]]]; discriminate H. }
  pose proof (C4_unknown_command_rejected_by_parser Sample.world Sample.deploy
    {| provider := "claude-code"; print_only := false;
       command := "deploy"; issue := None; pr := None; issues := None |}
    (YMap [])) as (H1 & H2 & _).
  pose proof (C4_unknown_command_rejected_by_parser Sample.world
    Sample.help_deploy
    {| provider := "claude-code"; print_only := false;
       command := "deploy"; issue := None; pr := None; issues := None |}
    (YMap [])) as (H3 & _).
  split; [|split].
  - apply (proj1 (H1 Hd)). reflexivity.
  - apply (proj1 (proj2 (H3 Hd))). reflexivity.
  - apply H2; [reflexivity|reflexivity|].
    simpl. intros [H|[H|[H|[H|[]]]]]; discriminate H.
Defined.

(** ** The two forms of a remote *)

(** The marker of the HTTPS form does not start inside an owner name
    without a dot or a slash. *)
Lemma no_marker_in_owner owner rest :
  lacks "/" owner = true ->
  lacks "." owner = true ->
  startswith "github.com/" (owner ++ String "/" rest) = false.
Proof.
  intros Ls Ld.
  destruct owner as [|c0 [|c1 [|c2 [|c3 [|c4 [|c5 [|c6 owner]]]]]]];
    cbn [append startswith];
    try (cbn; rewrite ?andb_false_r; reflexivity).
  cbn [lacks] in Ld.
  do 6 (apply andb_prop in Ld as [_ Ld]).
  apply andb_prop in Ld as [Ld _]. apply negb_true_iff in Ld.
  rewrite Ld. rewrite ?andb_false_r. cbn [andb]. rewrite ?andb_false_r. reflexivity.
Qed.

(** After the marker, an owner, a slash and a text without slash hold no
    second marker: the HTTPS form is cut in two. *)
Lemma split_scan_owner owner rest :
  lacks "/" owner = true ->
  lacks "." owner = true ->
  lacks "/" rest = true ->
  forall cur,
    split_scan "github.com/" 0 cur (owner ++ String "/" rest)
    = [cur ++ owner ++ String "/" rest].
Proof.
  intros Ls Ld Lr. induction owner as [|x owner IH]; intros cur.
  - cbn [append split_scan startswith Ascii.eqb Bool.eqb andb].
    rewrite (split_scan_lacks _ "/") by (reflexivity || exact Lr).
    rewrite append_assoc. reflexivity.
  - change (String x owner ++ String "/" rest)
      with (String x (owner ++ String "/" rest)).
    cbn [split_scan].
    change (String x (owner ++ String "/" rest))
      with (String x owner ++ String "/" rest).
    rewrite no_marker_in_owner by assumption.
    cbn [lacks] in Ls, Ld.
    apply andb_prop in Ls as [_ Ls]. apply andb_prop in Ld as [_ Ld].
    rewrite IH by assumption. rewrite append_assoc. reflexivity.
Qed.

Lemma split_ssh owner repo :
  lacks ":" owner = true ->
  lacks ":" repo = true ->
  split ":" (ssh_url owner repo)
  = ["git@github.com"; owner ++ "/" ++ repo ++ ".git"].
Proof.
  intros Lo Lr. unfold split, ssh_url.
  change ("git@github.com:" ++ owner ++ "/" ++ repo ++ ".git")
    with ("git@github.com" ++ String ":" (owner ++ "/" ++ repo ++ ".git")).
  rewrite split_scan_char by reflexivity.
  rewrite (split_scan_lacks ":" ":"); [reflexivity|reflexivity|].
  rewrite !lacks_app, Lo, Lr. reflexivity.
Qed.

Lemma split_https owner repo :
  lacks "/" owner = true ->
  lacks "." owner = true ->
  lacks "/" repo = true ->
  split "github.com/" (https_url owner repo)
  = ["https://"; owner ++ "/" ++ repo ++ ".git"].
Proof.
  intros Ls Ld Lr. unfold split, https_url.
  cbn [append split_scan startswith Ascii.eqb Bool.eqb andb String.length
       Nat.sub].
  rewrite split_scan_owner; try assumption; [reflexivity|].
  rewrite lacks_app, Lr. reflexivity.
Qed.

(** What is left of the path [owner/repo.git] once [.git] is deleted and
    the rest is cut at the slash. *)
Lemma split_path owner repo :
  lacks "/" owner = true ->
  lacks "." owner = true ->
  lacks "/" repo = true ->
  split "/" (replace ".git" "" (owner ++ "/" ++ repo ++ ".git"))
  = [owner; replace ".git" "" (repo ++ ".git")].
Proof.
  intros Ls Ld Lr. unfold replace, split.
  rewrite replace_scan_skip by exact Ld.
  cbn [append replace_scan startswith Ascii.eqb Bool.eqb andb].
  rewrite split_scan_char by exact Ls.
  rewrite (split_scan_lacks "/" "/"); [reflexivity|reflexivity|].
  apply replace_scan_lacks. rewrite lacks_app, Lr. reflexivity.
Qed.

Lemma get_repo_info_github w out owner repo :
  git_origin w = Some out ->
  contains "github.com" (strip out) = true ->
  parse_github_url (strip out) = ([], Ret (Some owner, Some repo)) ->
  get_repo_info w = ([Run git_cmd], Ret (Some owner, Some repo)).
Proof.
  intros Hg Hc Hp. unfold get_repo_info, git_remote_url. rewrite Hg.
  cbn [or_raise]. unfold try_except, proc_bind.
  cbn -[strip contains parse_github_url]. rewrite Hc, Hp. reflexivity.
Qed.

(** C5: for an owner name without colon, slash or dot and a repository name
    without colon or slash (as GitHub names are), the SSH form
    [git@github.com:owner/repo.git] and the HTTPS form
    [https://github.com/owner/repo.git] of a remote, printed by git with
    any blanks around them, give the same pair: the owner, and the
    repository name with [.git] deleted. *)
Theorem C5_ssh_and_https_same_pair w_ssh w_https owner repo pre post pre' post' :
  lacks ":" owner = true ->
  lacks "/" owner = true ->
  lacks "." owner = true ->
  lacks ":" repo = true ->
  lacks "/" repo = true ->
  blank pre = true -> blank post = true ->
  blank pre' = true -> blank post' = true ->
  git_origin w_ssh = Some (pre ++ ssh_url owner repo ++ post) ->
  git_origin w_https = Some (pre' ++ https_url owner repo ++ post') ->
  outcome (get_repo_info w_ssh) = outcome (get_repo_info w_https)
  /\ outcome (get_repo_info w_ssh)
     = Ret (Some owner, Some (replace ".git" "" (repo ++ ".git"))).
Proof.
  intros Lco Lso Ldo Lcr Lsr Bpre Bpost Bpre' Bpost' Hssh Hhttps.
  assert (strip (pre ++ ssh_url owner repo ++ post) = ssh_url owner repo) as Es.
  { unfold ssh_url.
    replace ("git@github.com:" ++ owner ++ "/" ++ repo ++ ".git")
      with (String "g" ("it@github.com:" ++ owner ++ "/" ++ repo)
            ++ String "." "git")
      by (cbn [append]; rewrite !append_assoc; reflexivity).
    apply strip_around; auto. }
  assert (strip (pre' ++ https_url owner repo ++ post') = https_url owner repo)
    as Eh.
  { unfold https_url.
    replace ("https://github.com/" ++ owner ++ "/" ++ repo ++ ".git")
      with (String "h" ("ttps://github.com/" ++ owner ++ "/" ++ repo)
            ++ String "." "git")
      by (cbn [append]; rewrite !append_assoc; reflexivity).
    apply strip_around; auto. }
  assert (get_repo_info w_ssh
          = ([Run git_cmd],
             Ret (Some owner, Some (replace ".git" "" (repo ++ ".git"))))) as Gs.
  { apply (get_repo_info_github _ _ _ _ Hssh); rewrite Es.
    - reflexivity.
    - unfold parse_github_url.
      change (startswith "git@" (ssh_url owner repo)) with true. cbv iota.
      rewrite split_ssh by assumption.
      cbn [second nth_error or_raise]. rewrite bind_pure.
      rewrite split_path by assumption. reflexivity. }
  assert (get_repo_info w_https
          = ([Run git_cmd],
             Ret (Some owner, Some (replace ".git" "" (repo ++ ".git"))))) as Gh.
  { apply (get_repo_info_github _ _ _ _ Hhttps); rewrite Eh.
    - reflexivity.
    - unfold parse_github_url.
      change (startswith "git@" (https_url owner repo)) with false. cbv iota.
      rewrite split_https by assumption.
      cbn [second nth_error or_raise]. rewrite bind_pure.
      rewrite split_path by assumption. reflexivity. }
  rewrite Gs, Gh. split; reflexivity.
Qed.

(** [acme/widgets] in both forms, each followed by a newline. *)
Lemma C5_ssh_and_https_same_pair_witness :
  outcome (get_repo_info Sample.world)
  = outcome (get_repo_info Sample.world_https)
  /\ outcome (get_repo_info Sample.world)
     = Ret (Some "acme", Some (replace ".git" "" "widgets.git")).
Proof.
  refine (C5_ssh_and_https_same_pair Sample.world Sample.world_https
            "acme" "widgets" "" nl "" nl _ _ _ _ _ _ _ _ _ _ _);
    reflexivity.
Defined.

(** ** Missing files *)

(** Without a configuration file a run ends in the argument parser or in
    [load_config]. *)
Lemma main_no_config w inv :
  config_file w = Absent ->
  (given_help inv = None
   /\ main w inv
      = ([Print ("Config not found at " ++ config_path w)], Exit 1%Z))
  \/ (exists why, main w inv = ([UsageError why], Exit 2%Z))
  \/ (given_help inv <> None /\ help_run (main w inv)).
Proof.
  intros Hc.
  destruct (main_cases w inv) as [(args & Hp & Hh & _ & _ & E)|[H|H]];
    [left|right; left; exact H|right; right; exact H].
  split; [exact Hh|]. rewrite E. unfold dispatch, load_config.
  rewrite Hc. reflexivity.
Qed.

(** C6, as stated, fails for implement: [cmd_implement] asks git for the
    origin before it looks for its template, so when the template is
    missing one child process, git, has been started already. *)
Lemma C6_missing_template_counterexample :
  prompt_file Sample.world_no_prompts "implement" = Absent
  /\ main Sample.world_no_prompts Sample.implement_42
     = ([Run git_cmd;
         Print "Prompt not found: /repo/.agent/prompts/implement.md"],
        Exit 1%Z)
  /\ spawned (trace (main Sample.world_no_prompts Sample.implement_42))
     <> [].
Proof.
  split; [reflexivity|split; [reflexivity|]].
  discriminate.
Qed.

(** C6, amended: when the configuration file does not exist the program
    starts no child process at all; without [-h] on the command line it
    exits with a nonzero status, with the message "Config not found at ..."
    and status 1 once the command line has parsed.  When the template of
    the chosen subcommand does not exist the program never starts the
    agent; without [-h] it exits with a nonzero status; a run that reaches
    the handler prints "Prompt not found: ..." and exits with 1, and
    nothing follows the message.  Before that message review and
    security-review have done nothing, and implement has run the git origin
    lookup, which is one child process.  With [-h] on the command line the
    run ends in the argument parser before any file is looked for: it
    prints a help text and exits with 0, or reports a usage error and exits
    with 2. *)
Theorem C6_missing_files w inv :
  (config_file w = Absent ->
   spawned (trace (main w inv)) = []
   /\ (given_help inv = None ->
       exists code, exit_code (outcome (main w inv)) = Some code
                    /\ code <> 0%Z)
   /\ (given_help inv <> None ->
       help_run (main w inv)
       \/ exists why, main w inv = ([UsageError why], Exit 2%Z))
   /\ (forall args, parse_args inv = ([], Ret args) ->
         main w inv
         = ([Print ("Config not found at " ++ config_path w)], Exit 1%Z)))
  /\ (forall c name,
        given_command inv = Some c ->
        template_of c = Some name ->
        prompt_file w name = Absent ->
        agent_spawned (trace (main w inv)) = []
        /\ (given_help inv = None ->
            exists code, exit_code (outcome (main w inv)) = Some code
                         /\ code <> 0%Z)
        /\ (given_help inv <> None ->
            help_run (main w inv)
            \/ exists why, main w inv = ([UsageError why], Exit 2%Z))
        /\ (forall args config, ready w inv args config ->
              main w inv
              = (((if String.eqb c "implement" then [Run git_cmd] else [])
                  ++ [Print ("Prompt not found: " ++ prompts_dir w ++ "/"
                             ++ name ++ ".md")])%list,
                 Exit 1%Z))).
Proof.
  assert (given_help inv <> None ->
          help_run (main w inv)
          \/ exists why, main w inv = ([UsageError why], Exit 2%Z)) as Hhelp.
  { intros Hh.
    destruct (main_cases w inv) as [(args & _ & Hn & _)|[H|(_ & H)]];
      [contradiction|right; exact H|left; exact H]. }
  split.
  - intros Hc. split; [|split; [|split; [exact Hhelp|]]].
    + destruct (main_no_config w inv Hc) as [(_ & E)|[(why & E)|(_ & H)]];
        [rewrite E; reflexivity..|].
      apply (help_run_quiet _ H).
    + intros Hn.
      destruct (main_no_config w inv Hc) as [(_ & E)|[(why & E)|(Hh & _)]];
        [rewrite E; exists 1%Z; split; [reflexivity|discriminate]
        |rewrite E; exists 2%Z; split; [reflexivity|discriminate]
        |contradiction].
    + intros args Hp. rewrite (main_parsed _ _ _ Hp).
      unfold dispatch, load_config. rewrite Hc. reflexivity.
  - intros c name Hc Ht Hf.
    assert (In c single_task /\
            (c = "implement" /\ name = "implement"
             \/ c = "review" /\ name = "review"
             \/ c = "security-review" /\ name = "security")) as [Hin Hcases].
    { unfold template_of in Ht.
      destruct (String.eqb_spec c "implement") as [->|_];
        [inversion Ht; simpl; tauto|].
      destruct (String.eqb_spec c "review") as [->|_];
        [inversion Ht; simpl; tauto|].
      destruct (String.eqb_spec c "security-review") as [->|_];
        [inversion Ht; simpl; tauto|discriminate]. }
    assert (forall args,
              parse_args inv = ([], Ret args) ->
              command args = c
              /\ (c = "implement" -> exists n, issue args = Some n)) as Hargs.
    { intros args Hp.
      destruct (parse_args_cases inv)
        as [(a & Ha & Hg & _)|[(why & Hw)|(_ & [Hw|(c' & Hw)])]];
        [|congruence..].
      assert (a = args) as -> by congruence.
      split; [congruence|]. intros ->.
      pose proof (parse_args_ret_no_help _ _ _ Hp) as Hn.
      revert Hp. unfold parse_args. rewrite Hc, Hn.
      cbn [String.eqb Ascii.eqb Bool.eqb].
      unfold required_int. destruct (given_issue inv) as [ti|];
        [|discriminate].
      destruct (PyStr.int ti) as [n|]; [|discriminate].
      exists n. revert Hp.
      destruct (given_pr inv), (given_issues inv); try discriminate.
      intros Hp. inversion Hp. reflexivity. }
    assert (forall args config,
              parse_args inv = ([], Ret args) ->
              config_file w = Content config ->
              provider args = "claude-code" ->
              main w inv
              = (((if String.eqb c "implement" then [Run git_cmd] else [])
                  ++ [Print ("Prompt not found: " ++ prompts_dir w ++ "/"
                             ++ name ++ ".md")])%list,
                 Exit 1%Z)) as Hready.
    { intros args config Hp Hcf Hv.
      rewrite (main_ready w inv args config) by (repeat split; assumption).
      destruct (Hargs args Hp) as [-> Hn].
      destruct Hcases as [[E ->]|[[E ->]|[E ->]]]; rewrite E.
      - change (dict_get commands "implement") with (Some cmd_implement).
        destruct (Hn E) as [n Hi].
        cbv iota. rewrite cmd_implement_eq, Hi, Hf. reflexivity.
      - change (dict_get commands "review") with (Some cmd_review).
        cbv iota. rewrite cmd_review_eq, Hf. reflexivity.
      - change (dict_get commands "security-review")
          with (Some cmd_security_review).
        cbv iota. rewrite cmd_security_review_eq, Hf. reflexivity. }
    assert (given_help inv = None ->
            agent_spawned (trace (main w inv)) = []
            /\ exists code, exit_code (outcome (main w inv)) = Some code
                            /\ code <> 0%Z) as Hplain.
    { intros Hn.
      destruct (main_cases w inv)
        as [(args & Hp & _ & _ & _ & E)|[(why & E)|(Hh & _)]];
        [|rewrite E; split;
          [reflexivity|exists 2%Z; split; [reflexivity|discriminate]]
         |contradiction].
      destruct (config_file w) as [|e|config] eqn:Hcf.
      - rewrite E. unfold dispatch, load_config. rewrite Hcf.
        split; [reflexivity|exists 1%Z; split; [reflexivity|discriminate]].
      - rewrite E. unfold dispatch, load_config. rewrite Hcf.
        split; [reflexivity|exists 1%Z; split; [reflexivity|discriminate]].
      - destruct (String.eqb_spec (provider args) "claude-code") as [Hv|Hv].
        + rewrite (Hready args config Hp eq_refl Hv).
          split; [|exists 1%Z; split; [reflexivity|discriminate]].
          destruct (String.eqb c "implement"); reflexivity.
        + rewrite E. unfold dispatch, load_config. rewrite Hcf.
          rewrite bind_pure.
          apply String.eqb_neq in Hv. rewrite Hv.
          split; [reflexivity|exists 1%Z; split; [reflexivity|discriminate]]. }
    split; [|split; [|split; [exact Hhelp|]]].
    + destruct (given_help inv) as [h|] eqn:Eh.
      * destruct Hhelp as [H|(why & E)]; [discriminate| |].
        -- destruct H as [->|(c' & ->)]; reflexivity.
        -- rewrite E. reflexivity.
      * apply Hplain. reflexivity.
    + intros Hn. apply Hplain, Hn.
    + intros args config (Hp & Hcf & Hv). apply (Hready args config Hp Hcf Hv).
Qed.

(** [review --pr 7] without a configuration file, and without templates;
    [review -h] and [review --pr x -h] without a configuration file. *)
Lemma C6_missing_files_witness :
  main Sample.world_no_config Sample.review_7
  = ([Print "Config not found at /repo/.agent/config.yml"], Exit 1%Z)
  /\ main Sample.world_no_prompts Sample.review_7
     = ([Print "Prompt not found: /repo/.agent/prompts/review.md"], Exit 1%Z)
  /\ (exists code,
        exit_code (outcome (main Sample.world_no_config Sample.review_7))
        = Some code /\ code <> 0%Z)
  /\ (help_run (main Sample.world_no_config Sample.review_help)
      \/ exists why,
           main Sample.world_no_config Sample.review_help
           = ([UsageError why], Exit 2%Z))
  /\ (help_run (main Sample.world_no_prompts Sample.review_x_help)
      \/ exists why,
           main Sample.world_no_prompts Sample.review_x_help
           = ([UsageError why], Exit 2%Z)).
Proof.
  split; [|split; [|split; [|split]]].
  - refine (proj2 (proj2 (proj2 (proj1
      (C6_missing_files Sample.world_no_config Sample.review_7) _)))
      {| provider := "claude-code"; print_only := false; command := "review";
         issue := None; pr := Some 7%Z; issues := None |} _);
      reflexivity.
  - refine (proj2 (proj2 (proj2 (proj2
      (C6_missing_files Sample.world_no_prompts Sample.review_7)
      "review" "review" _ _ _)))
      {| provider := "claude-code"; print_only := false; command := "review";
         issue := None; pr := Some 7%Z; issues := None |} (YMap []) _);
      try reflexivity.
    repeat split.
  - refine (proj1 (proj2 (proj1
      (C6_missing_files Sample.world_no_config Sample.review_7) _)) _);
      reflexivity.
  - refine (proj1 (proj2 (proj2 (proj1
      (C6_missing_files Sample.world_no_config Sample.review_help) _))) _);
      [reflexivity|discriminate].
  - refine (proj1 (proj2 (proj2 (proj2
      (C6_missing_files Sample.world_no_prompts Sample.review_x_help)
      "review" "review" _ _ _))) _);
      try reflexivity.
    discriminate.
Defined.

(** ** Unsupported providers *)

(** C7, as stated, fails when the configuration file is missing: the
    configuration is loaded before the provider is looked at, so
    [agent.py --provider ollama review --pr 7] prints the
    configuration message and never the unsupported-provider message. *)
Lemma C7_provider_counterexample :
  given_provider Sample.ollama_review_7 = Some "ollama"
  /\ main Sample.world_no_config Sample.ollama_review_7
     = ([Print "Config not found at /repo/.agent/config.yml"], Exit 1%Z)
  /\ ~ In (Print "Provider 'ollama' not yet implemented.")
          (trace (main Sample.world_no_config Sample.ollama_review_7)).
Proof.
  split; [reflexivity|split; [reflexivity|]].
  simpl. intros [H|[]]. discriminate H.
Qed.

(** C7, amended: for every subcommand that parses, if the provider is not
    claude-code and the configuration file loads, the program prints the
    three lines of the unsupported-provider message and exits with 1, and
    that is all it does: no handler runs.  When the configuration file is
    missing the program prints the configuration message instead and exits
    with 1.  In every case no child process is started and the exit status
    is 1. *)
Theorem C7_unsupported_provider w inv args :
  parse_args inv = ([], Ret args) ->
  provider args <> "claude-code" ->
  main w inv =
    match config_file w with
    | Content _ =>
        ([Print ("Provider '" ++ provider args ++ "' not yet implemented.");
          Print "Currently only claude-code (Max subscription) is supported.";
          Print "Other providers can be added to scripts/agent.py as needed."],
         Exit 1%Z)
    | Absent => ([Print ("Config not found at " ++ config_path w)], Exit 1%Z)
    | Faulty e => ([], Raise e)
    end
  /\ spawned (trace (main w inv)) = []
  /\ exit_code (outcome (main w inv)) = Some 1%Z.
Proof.
  intros Hp Hv.
  assert (main w inv =
    match config_file w with
    | Content _ =>
        ([Print ("Provider '" ++ provider args ++ "' not yet implemented.");
          Print "Currently only claude-code (Max subscription) is supported.";
          Print "Other providers can be added to scripts/agent.py as needed."],
         Exit 1%Z)
    | Absent => ([Print ("Config not found at " ++ config_path w)], Exit 1%Z)
    | Faulty e => ([], Raise e)
    end) as E.
  { unfold main. rewrite Hp. fold (ret args). rewrite bind_pure.
    unfold dispatch, load_config.
    destruct (config_file w) as [|e|c]; try reflexivity.
    rewrite bind_pure.
    destruct (String.eqb_spec (provider args) "claude-code") as [H|_];
      [contradiction|reflexivity]. }
  split; [exact E|]. rewrite E.
  destruct (config_file w); split; reflexivity.
Qed.

(** [--provider ollama review --pr 7] with the configuration in place. *)
Lemma C7_unsupported_provider_witness :
  main Sample.world Sample.ollama_review_7
  = ([Print "Provider 'ollama' not yet implemented.";
      Print "Currently only claude-code (Max subscription) is supported.";
      Print "Other providers can be added to scripts/agent.py as needed."],
     Exit 1%Z).
Proof.
  refine (proj1 (C7_unsupported_provider Sample.world Sample.ollama_review_7
    {| provider := "ollama"; print_only := false; command := "review";
       issue := None; pr := Some 7%Z; issues := None |} _ _)).
  - reflexivity.
  - discriminate.
Defined.

(** ** Lookup failures *)

(** When the lookup goes wrong the handler of [get_repo_info] takes over:
    the result is [(None, None)]. *)
Lemma get_repo_info_failure w :
  (git_origin w = None
   \/ exists out,
        git_origin w = Some out
        /\ (contains "github.com" (strip out) = false
            \/ exists e, outcome (parse_github_url (strip out)) = Raise e)) ->
  get_repo_info w = ([Run git_cmd], Ret (None, None)).
Proof.
  unfold get_repo_info, git_remote_url.
  intros [->|(out & -> & [Hc|(e & He)])].
  - reflexivity.
  - cbn [or_raise]. unfold try_except, proc_bind.
    cbn -[strip contains parse_github_url]. rewrite Hc. reflexivity.
  - cbn [or_raise]. unfold try_except, proc_bind.
    cbn -[strip contains parse_github_url].
    destruct (contains "github.com" (strip out)); [|reflexivity].
    destruct (parse_github_url_pure (strip out)) as [(o & r & E)|(e' & E)];
      rewrite E in *; [discriminate He|reflexivity].
Qed.

(** C8: in a run of implement that gets as far as composing a prompt, when
    the origin lookup fails (running git raises, or what it prints does not
    mention github.com, or cutting the URL up raises), the failure does not
    leave [get_repo_info], which returns [(None, None)], and the prompt
    handed to the agent names the task "issue N" and not "#N": it is the
    implement prompt built from "issue N", which opens with
    "Read GitHub issue issue N and implement it.". *)
Theorem C8_lookup_failure_gives_issue_n w inv args config n base :
  ready w inv args config ->
  command args = "implement" ->
  issue args = Some n ->
  prompt_file w "implement" = Content base ->
  (git_origin w = None
   \/ exists out,
        git_origin w = Some out
        /\ (contains "github.com" (strip out) = false
            \/ exists e, outcome (parse_github_url (strip out)) = Raise e)) ->
  get_repo_info w = ([Run git_cmd], Ret (None, None))
  /\ prompts_sent (trace (main w inv))
     = [implement_prompt ("issue " ++ str n) base n]
  /\ trace (main w inv)
     = Run git_cmd
         :: claude_events (implement_prompt ("issue " ++ str n) base n)
              (print_only args)
  /\ "issue " ++ str n <> "#" ++ str n
  /\ exists rest,
       implement_prompt ("issue " ++ str n) base n
       = "Read GitHub issue issue " ++ str n ++ " and implement it." ++ rest.
Proof.
  intros Hr Hc Hi Hf Hfail.
  pose proof (get_repo_info_failure w Hfail) as Hg.
  assert (repo_info w = (None, None)) as Hri.
  { unfold repo_info. rewrite Hg. reflexivity. }
  assert (trace (main w inv)
          = Run git_cmd
              :: claude_events (implement_prompt ("issue " ++ str n) base n)
                   (print_only args)) as Et.
  { rewrite (main_ready _ _ _ _ Hr), Hc.
    change (dict_get commands "implement") with (Some cmd_implement).
    cbv iota. rewrite cmd_implement_eq, Hi, Hf, Hri. cbv zeta.
    rewrite exit_with_child. reflexivity. }
  split; [exact Hg|split; [|split; [exact Et|split]]].
  - rewrite Et. unfold prompts_sent. rewrite agent_spawned_git,
      agent_spawned_claude_events. destruct (print_only args); reflexivity.
  - cbn [append]. discriminate.
  - unfold implement_prompt. eexists.
    rewrite (append_assoc "issue " (str n)). reflexivity.
Qed.

(** [implement --issue 42] in a checkout without a remote. *)
Lemma C8_lookup_failure_gives_issue_n_witness :
  prompts_sent (trace (main Sample.world_no_remote Sample.implement_42))
  = [implement_prompt "issue 42"
       "Template implement: {task_description} / {issue_number}" 42].
Proof.
  refine (proj1 (proj2 (C8_lookup_failure_gives_issue_n
    Sample.world_no_remote Sample.implement_42
    {| provider := "claude-code"; print_only := false; command := "implement";
       issue := Some 42%Z; pr := None; issues := None |}
    (YMap []) 42
    "Template implement: {task_description} / {issue_number}" _ _ _ _ _))).
  - repeat split.
  - reflexivity.
  - reflexivity.
  - reflexivity.
  - right. exists "". split; [reflexivity|]. left. reflexivity.
Defined.

(** ** Issue lists that do not parse *)

(** One bad token makes the whole list comprehension raise: nothing has
    been printed or started by then. *)
Lemma parse_issues_bad tokens :
  (exists tok, In tok tokens /\ PyStr.int (strip tok) = None) ->
  parse_issues tokens = ([], Raise ValueError).
Proof.
  induction tokens as [|t rest IH]; intros (tok & Hin & Hbad).
  - destruct Hin.
  - cbn [parse_issues]. destruct (PyStr.int (strip t)) as [n|] eqn:E.
    + destruct Hin as [->|Hin]; [congruence|].
      cbn [or_raise]. rewrite bind_pure, IH by eauto. reflexivity.
    + reflexivity.
Qed.

(** C9: an [--issues] text is any string for the argument parser; when one
    of its comma-separated tokens is not an integer literal, as in ["1,a"]
    or with the empty last token of ["1,"], [cmd_batch] raises [ValueError]
    out of the list comprehension.  The exception is not caught anywhere:
    the run ends with it before anything is printed and before any child is
    started. *)
Theorem C9_batch_bad_issue_list w inv args config text :
  ready w inv args config ->
  command args = "batch" ->
  issues args = Some text ->
  (exists tok, In tok (split "," text) /\ PyStr.int (strip tok) = None) ->
  cmd_batch w args config = ([], Raise ValueError)
  /\ main w inv = ([], Raise ValueError)
  /\ spawned (trace (main w inv)) = []
  /\ (exists tok, In tok (split "," "1,a") /\ PyStr.int (strip tok) = None)
  /\ (exists tok, In tok (split "," "1,") /\ PyStr.int (strip tok) = None).
Proof.
  intros Hr Hc Ht Hbad.
  assert (cmd_batch w args config = ([], Raise ValueError)) as E.
  { unfold cmd_batch. rewrite Ht. cbn [attr or_raise]. rewrite bind_pure.
    rewrite parse_issues_bad by exact Hbad. reflexivity. }
  assert (main w inv = ([], Raise ValueError)) as Em.
  { rewrite (main_ready _ _ _ _ Hr), Hc. cbn [dict_get commands String.eqb Ascii.eqb Bool.eqb].
    rewrite E. reflexivity. }
  repeat split; try assumption.
  - rewrite Em. reflexivity.
  - exists "a". split; [simpl; tauto|reflexivity].
  - exists "". split; [simpl; tauto|reflexivity].
Qed.

(** [batch --issues "1,a"] parses and then raises. *)
Lemma C9_batch_bad_issue_list_witness :
  (exists args, parse_args Sample.batch_1a = ([], Ret args)
                /\ issues args = Some "1,a")
  /\ main Sample.world Sample.batch_1a = ([], Raise ValueError).
Proof.
  split.
  - eexists. split; reflexivity.
  - refine (proj1 (proj2 (C9_batch_bad_issue_list Sample.world Sample.batch_1a
      {| provider := "claude-code"; print_only := false; command := "batch";
         issue := None; pr := None; issues := Some "1,a" |}
      (YMap []) "1,a" _ _ _ _))).
    + repeat split.
    + reflexivity.
    + reflexivity.
    + exists "a". split; [simpl; tauto|reflexivity].
Defined.

(** ** The configuration is loaded and never read *)

Lemma proc_bind_ext {A B} (m : Proc A) (f g : A -> Proc B) :
  (forall a, f a = g a) -> proc_bind m f = proc_bind m g.
Proof.
  intros H. unfold proc_bind. destruct (snd m); try reflexivity.
  rewrite H. reflexivity.
Qed.

Lemma start_all_ext w1 w2 todo :
  (forall k cmd, child w1 k cmd = child w2 k cmd) ->
  forall k, start_all w1 k todo = start_all w2 k todo.
Proof.
  intros Hch. induction todo as [|issue rest IH]; intros k.
  - reflexivity.
  - cbn [start_all]. unfold popen. rewrite Hch, (IH (S k)). reflexivity.
Qed.

Lemma cmd_batch_ext w1 w2 args c1 c2 :
  (forall k cmd, child w1 k cmd = child w2 k cmd) ->
  cmd_batch w1 args c1 = cmd_batch w2 args c2.
Proof.
  intros Hch. unfold cmd_batch.
  do 3 (apply proc_bind_ext; intros ?).
  rewrite (start_all_ext w1 w2) by exact Hch. reflexivity.
Qed.

(** Every handler of the dictionary does in [with_config w c] what it does
    in [w]. *)
Lemma handler_with_config w c name h args config :
  In (name, h) commands ->
  h (with_config w c) args config = h w args config.
Proof.
  intros [E|[E|[E|[E|[]]]]]; inversion E; subst; clear E.
  - reflexivity.
  - reflexivity.
  - reflexivity.
  - apply cmd_batch_ext. reflexivity.
Qed.

Lemma dict_get_in {V} (d : list (string * V)) key v :
  dict_get d key = Some v -> In (key, v) d.
Proof.
  induction d as [|[k x] rest IH]; simpl; [discriminate|].
  destruct (String.eqb_spec k key) as [->|_].
  - intros E. inversion E. auto.
  - auto.
Qed.

Lemma with_config_same w c : config_file w = Content c -> with_config w c = w.
Proof. destruct w. cbn. intros ->. reflexivity. Qed.

(** C10, as stated, fails in its last clause: a configuration file that is
    there but is not YAML makes [yaml.safe_load] raise, and the run ends
    with that exception instead of starting the agent.  Both checkouts
    pass the existence check and agree on everything but the content of
    the file. *)
Lemma C10_config_file_counterexample :
  config_file Sample.world <> Absent
  /\ config_file Sample.world_bad_yaml <> Absent
  /\ main Sample.world_bad_yaml Sample.review_7 = ([], Raise YAMLError)
  /\ spawned (trace (main Sample.world Sample.review_7))
     = [claude_cmd
          (review_prompt
             "Template review: {task_description} / {issue_number}" 7)
          false]
  /\ outcome (main Sample.world Sample.review_7) = Exit 3%Z
  /\ main Sample.world Sample.review_7
     <> main Sample.world_bad_yaml Sample.review_7.
Proof.
  split; [discriminate|split; [discriminate|]].
  split; [reflexivity|split; [reflexivity|split; [reflexivity|]]].
  intros H. apply (f_equal snd) in H. vm_compute in H. discriminate H.
Qed.

(** C10, amended: the value loaded from the configuration file has no
    influence.  Every handler of the dictionary does the same (same trace,
    so same prompt and same child command lines, and same result) for any
    two configuration values, and two runs of the program that differ only
    in the configuration value loaded are identical; so a run in a world
    whose file loads is the run with any other value loaded.  The file
    matters through whether it is there and whether it loads: once the
    command line has parsed, a file that is missing ends the run with the
    message "Config not found at ..." and status 1, and a file that is
    there but makes [open] or [yaml.safe_load] raise ends the run with that
    exception, before the provider is looked at and before any handler. *)
Theorem C10_config_contents_ignored w inv c1 c2 :
  (forall name h args, In (name, h) commands ->
     h w args c1 = h w args c2)
  /\ main (with_config w c1) inv = main (with_config w c2) inv
  /\ (config_file w = Content c1 -> main w inv = main (with_config w c2) inv)
  /\ (forall args,
        parse_args inv = ([], Ret args) ->
        config_file w = Absent ->
        main w inv
        = ([Print ("Config not found at " ++ config_path w)], Exit 1%Z))
  /\ (forall args e,
        parse_args inv = ([], Ret args) ->
        config_file w = Faulty e ->
        main w inv = ([], Raise e)).
Proof.
  assert (main (with_config w c1) inv = main (with_config w c2) inv) as Hm.
  { unfold main. apply proc_bind_ext. intros args.
    unfold dispatch, load_config. cbn [with_config config_file].
    rewrite !bind_pure.
    destruct (negb (provider args =? "claude-code")); [reflexivity|].
    destruct (dict_get commands (command args)) as [h|] eqn:Eh; [|reflexivity].
    apply dict_get_in in Eh.
    rewrite !(handler_with_config w _ _ h args _ Eh).
    assert (h w args c1 = h w args c2) as ->; [|reflexivity].
    destruct Eh as [E|[E|[E|[E|[]]]]]; inversion E; subst; reflexivity. }
  split; [|split; [exact Hm|split; [|split]]].
  - intros name h args [E|[E|[E|[E|[]]]]]; inversion E; subst; reflexivity.
  - intros Hc. rewrite <- Hm, (with_config_same w c1 Hc). reflexivity.
  - intros args Hp Hc. rewrite (main_parsed _ _ _ Hp).
    unfold dispatch, load_config. rewrite Hc. reflexivity.
  - intros args e Hp Hc. rewrite (main_parsed _ _ _ Hp).
    unfold dispatch, load_config. rewrite Hc. reflexivity.
Qed.

(** [cmd_implement] with an empty mapping and with [null] as
    configuration; [review --pr 7] with a configuration file that is not
    YAML, and without one. *)
Lemma C10_config_contents_ignored_witness :
  cmd_implement Sample.world
    {| provider := "claude-code"; print_only := false; command := "implement";
       issue := Some 42%Z; pr := None; issues := None |} (YMap [])
  = cmd_implement Sample.world
    {| provider := "claude-code"; print_only := false; command := "implement";
       issue := Some 42%Z; pr := None; issues := None |} YNull
  /\ main Sample.world_bad_yaml Sample.review_7 = ([], Raise YAMLError)
  /\ main Sample.world_no_config Sample.review_7
     = ([Print "Config not found at /repo/.agent/config.yml"], Exit 1%Z)
  /\ main Sample.world Sample.review_7
     = main (with_config Sample.world YNull) Sample.review_7.
Proof.
  split; [|split; [|split]].
  - apply (proj1 (C10_config_contents_ignored Sample.world Sample.implement_42
                    (YMap []) YNull) "implement").
    simpl. left. reflexivity.
  - refine (proj2 (proj2 (proj2 (proj2
      (C10_config_contents_ignored Sample.world_bad_yaml Sample.review_7
         YNull YNull))))
      {| provider := "claude-code"; print_only := false; command := "review";
         issue := None; pr := Some 7%Z; issues := None |} YAMLError _ _);
      reflexivity.
  - refine (proj1 (proj2 (proj2 (proj2
      (C10_config_contents_ignored Sample.world_no_config Sample.review_7
         YNull YNull))))
      {| provider := "claude-code"; print_only := false; command := "review";
         issue := None; pr := Some 7%Z; issues := None |} _ _);
      reflexivity.
  - refine (proj1 (proj2 (proj2
      (C10_config_contents_ignored Sample.world Sample.review_7
         (YMap []) YNull))) _).
    reflexivity.
Defined.

(** * Further properties *)

(** ** More on the remote lookup *)

Lemma startswith_git_inv s :
  startswith ".git" s = true -> exists rest, s = ".git" ++ rest.
Proof.
  destruct s as [|c0 [|c1 [|c2 [|c3 rest]]]]; cbn [startswith];
    rewrite ?andb_false_r; try discriminate.
  intros H. repeat (apply andb_prop in H as [?E H]).
  apply Ascii.eqb_eq in E, E0, E1, E2. subst. exists rest. reflexivity.
Qed.

(** A [.git] cannot start inside a text and end inside the [.git] that
    follows it. *)
Lemma startswith_git_app s :
  startswith ".git" (s ++ ".git") = true ->
  s = "" \/ startswith ".git" s = true.
Proof.
  destruct s as [|c0 [|c1 [|c2 [|c3 rest]]]]; cbn [append startswith];
    try (left; reflexivity);
    try (cbn; rewrite ?andb_false_r; discriminate).
  intros H. right. exact H.
Qed.

Lemma replace_git_cons c s :
  startswith ".git" (String c s) = false ->
  replace ".git" "" (String c s) = String c (replace ".git" "" s).
Proof. intros H. unfold replace. cbn [replace_scan]. rewrite H. reflexivity. Qed.

Lemma replace_git_match s : replace ".git" "" (".git" ++ s) = replace ".git" "" s.
Proof. reflexivity. Qed.

(** Deleting [.git] from a name followed by [.git] leaves at most the
    name. *)
Lemma replace_git_le n :
  forall x, String.length x <= n ->
  String.length (replace ".git" "" (x ++ ".git")) <= String.length x.
Proof.
  induction n as [|n IH]; intros x L.
  - destruct x; [cbn; lia|cbn in L; lia].
  - destruct x as [|c r]; [cbn; lia|].
    destruct (startswith ".git" (String c r ++ ".git")) eqn:E.
    + apply startswith_git_app in E as [E|E]; [discriminate E|].
      apply startswith_git_inv in E as (rest & E). rewrite E in *.
      change ((".git" ++ rest) ++ ".git") with (".git" ++ (rest ++ ".git")).
      rewrite replace_git_match.
      cbn [append String.length] in L |- *.
      specialize (IH rest). lia.
    + change (String c r ++ ".git") with (String c (r ++ ".git")) in *.
      rewrite replace_git_cons by exact E.
      cbn [String.length] in L |- *. specialize (IH r). lia.
Qed.

(** A name without [.git] inside comes back whole. *)
Lemma replace_git_suffix repo :
  contains ".git" repo = false ->
  replace ".git" "" (repo ++ ".git") = repo.
Proof.
  induction repo as [|c r IH]; intros H; [reflexivity|].
  cbn [contains] in H. apply orb_false_iff in H as [Hs Hc].
  destruct (startswith ".git" (String c r ++ ".git")) eqn:E.
  - apply startswith_git_app in E as [E|E]; [discriminate E|congruence].
  - change (String c r ++ ".git") with (String c (r ++ ".git")) in *.
    rewrite replace_git_cons by exact E. rewrite IH by exact Hc. reflexivity.
Qed.

(** A name with [.git] inside comes back shorter. *)
Lemma replace_git_shorter repo :
  contains ".git" repo = true ->
  String.length (replace ".git" "" (repo ++ ".git")) < String.length repo.
Proof.
  induction repo as [|c r IH]; intros H; [discriminate H|].
  destruct (startswith ".git" (String c r)) eqn:Hs.
  - apply startswith_git_inv in Hs as (rest & E). rewrite E.
    change ((".git" ++ rest) ++ ".git") with (".git" ++ (rest ++ ".git")).
    rewrite replace_git_match.
    pose proof (replace_git_le _ rest (le_n _)).
    cbn [append String.length]. lia.
  - cbn [contains] in H. rewrite Hs in H. cbn [orb] in H.
    destruct (startswith ".git" (String c r ++ ".git")) eqn:E.
    + apply startswith_git_app in E as [E|E]; [discriminate E|congruence].
    + change (String c r ++ ".git") with (String c (r ++ ".git")) in *.
      rewrite replace_git_cons by exact E.
      cbn [String.length]. specialize (IH H). lia.
Qed.

Lemma split_ssh_at host owner repo :
  lacks ":" host = true ->
  lacks ":" owner = true ->
  lacks ":" repo = true ->
  split ":" (ssh_url_at host owner repo)
  = ["git@" ++ host; owner ++ "/" ++ repo ++ ".git"].
Proof.
  intros Lh Lo Lr. unfold split, ssh_url_at.
  replace ("git@" ++ host ++ ":" ++ owner ++ "/" ++ repo ++ ".git")
    with (("git@" ++ host) ++ String ":" (owner ++ "/" ++ repo ++ ".git"))
    by (rewrite append_assoc; reflexivity).
  rewrite split_scan_char by (rewrite lacks_app, Lh; reflexivity).
  rewrite (split_scan_lacks ":" ":"); [reflexivity|reflexivity|].
  rewrite !lacks_app, Lo, Lr. reflexivity.
Qed.

(** What [get_repo_info] makes of an SSH remote, on any host, that mentions
    github.com somewhere. *)
Lemma get_repo_info_ssh_at w host owner repo pre post :
  lacks ":" host = true ->
  lacks ":" owner = true ->
  lacks "/" owner = true ->
  lacks "." owner = true ->
  lacks ":" repo = true ->
  lacks "/" repo = true ->
  blank pre = true ->
  blank post = true ->
  contains "github.com" (ssh_url_at host owner repo) = true ->
  git_origin w = Some (pre ++ ssh_url_at host owner repo ++ post) ->
  get_repo_info w
  = ([Run git_cmd],
     Ret (Some owner, Some (replace ".git" "" (repo ++ ".git")))).
Proof.
  intros Lh Lco Lso Ldo Lcr Lsr Bpre Bpost Hc Hg.
  assert (strip (pre ++ ssh_url_at host owner repo ++ post)
          = ssh_url_at host owner repo) as Es.
  { unfold ssh_url_at.
    replace ("git@" ++ host ++ ":" ++ owner ++ "/" ++ repo ++ ".git")
      with (String "g" ("it@" ++ host ++ ":" ++ owner ++ "/" ++ repo)
            ++ String "." "git")
      by (cbn [append]; repeat (rewrite append_assoc; cbn [append]);
          reflexivity).
    apply strip_around; auto. }
  apply (get_repo_info_github _ _ _ _ Hg); rewrite Es; [exact Hc|].
  unfold parse_github_url.
  change (startswith "git@" (ssh_url_at host owner repo)) with true. cbv iota.
  rewrite split_ssh_at by assumption.
  cbn [second nth_error or_raise]. rewrite bind_pure.
  rewrite split_path by assumption. reflexivity.
Qed.

(** What [get_repo_info] makes of an HTTPS GitHub remote. *)
Lemma get_repo_info_https w owner repo pre post :
  lacks "/" owner = true ->
  lacks "." owner = true ->
  lacks "/" repo = true ->
  blank pre = true ->
  blank post = true ->
  git_origin w = Some (pre ++ https_url owner repo ++ post) ->
  get_repo_info w
  = ([Run git_cmd],
     Ret (Some owner, Some (replace ".git" "" (repo ++ ".git")))).
Proof.
  intros Lso Ldo Lsr Bpre Bpost Hg.
  assert (strip (pre ++ https_url owner repo ++ post) = https_url owner repo)
    as Eh.
  { unfold https_url.
    replace ("https://github.com/" ++ owner ++ "/" ++ repo ++ ".git")
      with (String "h" ("ttps://github.com/" ++ owner ++ "/" ++ repo)
            ++ String "." "git")
      by (cbn [append]; rewrite !append_assoc; reflexivity).
    apply strip_around; auto. }
  apply (get_repo_info_github _ _ _ _ Hg); rewrite Eh; [reflexivity|].
  unfold parse_github_url.
  change (startswith "git@" (https_url owner repo)) with false. cbv iota.
  rewrite split_https by assumption.
  cbn [second nth_error or_raise]. rewrite bind_pure.
  rewrite split_path by assumption. reflexivity.
Qed.

(** Either form of a GitHub remote with well-formed names. *)
Lemma get_repo_info_wellformed w url owner repo pre post :
  url = ssh_url owner repo \/ url = https_url owner repo ->
  lacks ":" owner = true ->
  lacks "/" owner = true ->
  lacks "." owner = true ->
  lacks ":" repo = true ->
  lacks "/" repo = true ->
  blank pre = true ->
  blank post = true ->
  git_origin w = Some (pre ++ url ++ post) ->
  get_repo_info w
  = ([Run git_cmd],
     Ret (Some owner, Some (replace ".git" "" (repo ++ ".git")))).
Proof.
  intros [->| ->] Lco Lso Ldo Lcr Lsr Bpre Bpost Hg.
  - apply (get_repo_info_ssh_at w "github.com" owner repo pre post);
      auto.
  - apply (get_repo_info_https w owner repo pre post); auto.
Qed.

(** X1: [get_repo_info] never raises and never exits, whatever git does or
    prints: it runs git once and returns either [(None, None)] or an owner
    together with a repository, never one without the other. *)
Theorem X1_get_repo_info_always_returns w :
  exists r,
    get_repo_info w = ([Run git_cmd], Ret r)
    /\ (r = (None, None) \/ exists owner repo, r = (Some owner, Some repo)).
Proof.
  unfold get_repo_info, git_remote_url.
  destruct (git_origin w) as [out|].
  - cbn [or_raise]. unfold try_except, proc_bind.
    cbn -[strip contains parse_github_url].
    destruct (contains "github.com" (strip out)).
    + destruct (parse_github_url_pure (strip out)) as [(o & r & E)|(e & E)];
        rewrite E; cbn [fst snd ret app]; eexists; split;
        try reflexivity; eauto.
    + eexists. split; [reflexivity|]. left. reflexivity.
  - eexists. split; [reflexivity|]. left. reflexivity.
Qed.

(** X2: for a GitHub remote with well-formed names, in either form, the
    repository name [get_repo_info] returns is the real one when the name
    does not contain [.git]; when it does (as in [acme.github.io]) the name
    returned is what [replace] leaves of the path [repo.git] once every
    [.git] is deleted from it, and it is shorter than the real one. *)
Theorem X2_repo_name_exact_unless_dot_git w url owner repo pre post :
  url = ssh_url owner repo \/ url = https_url owner repo ->
  lacks ":" owner = true ->
  lacks "/" owner = true ->
  lacks "." owner = true ->
  lacks ":" repo = true ->
  lacks "/" repo = true ->
  blank pre = true ->
  blank post = true ->
  git_origin w = Some (pre ++ url ++ post) ->
  (contains ".git" repo = false ->
   outcome (get_repo_info w) = Ret (Some owner, Some repo))
  /\ (contains ".git" repo = true ->
      outcome (get_repo_info w)
      = Ret (Some owner, Some (replace ".git" "" (repo ++ ".git")))
      /\ String.length (replace ".git" "" (repo ++ ".git"))
         < String.length repo).
Proof.
  intros Hu Lco Lso Ldo Lcr Lsr Bpre Bpost Hg.
  rewrite (get_repo_info_wellformed w url owner repo pre post) by assumption.
  cbn [outcome snd]. split; intros H.
  - rewrite replace_git_suffix by exact H. reflexivity.
  - split; [reflexivity|]. apply replace_git_shorter, H.
Qed.

(** [acme/widgets] comes back whole, [acme/acme.github.io] comes back as
    [acme/acmehub.io]. *)
Lemma X2_repo_name_exact_unless_dot_git_witness :
  outcome (get_repo_info Sample.world) = Ret (Some "acme", Some "widgets")
  /\ outcome (get_repo_info Sample.world_pages)
     = Ret (Some "acme", Some "acmehub.io")
  /\ String.length "acmehub.io" < String.length "acme.github.io".
Proof.
  split.
  - refine (proj1 (X2_repo_name_exact_unless_dot_git Sample.world
      (ssh_url "acme" "widgets") "acme" "widgets" "" nl
      _ _ _ _ _ _ _ _ _) _); try reflexivity.
    left. reflexivity.
  - refine (proj2 (X2_repo_name_exact_unless_dot_git Sample.world_pages
      (https_url "acme" "acme.github.io") "acme" "acme.github.io" "" nl
      _ _ _ _ _ _ _ _ _) _); try reflexivity.
    right. reflexivity.
Defined.

(** X3: [get_repo_info] does not look at the host.  An SSH remote
    [git@host:owner/repo.git] on any host is taken for a GitHub remote as
    soon as the text [github.com] occurs anywhere in it, for instance in the
    repository name, and its owner and repository are returned. *)
Theorem X3_host_is_not_checked w host owner repo pre post :
  lacks ":" host = true ->
  lacks ":" owner = true ->
  lacks "/" owner = true ->
  lacks "." owner = true ->
  lacks ":" repo = true ->
  lacks "/" repo = true ->
  blank pre = true ->
  blank post = true ->
  contains "github.com" (ssh_url_at host owner repo) = true ->
  git_origin w = Some (pre ++ ssh_url_at host owner repo ++ post) ->
  get_repo_info w
  = ([Run git_cmd],
     Ret (Some owner, Some (replace ".git" "" (repo ++ ".git")))).
Proof. apply get_repo_info_ssh_at. Qed.

(** A repository called [github.com] on gitlab.com. *)
Lemma X3_host_is_not_checked_witness :
  get_repo_info Sample.world_gitlab
  = ([Run git_cmd], Ret (Some "acme", Some "github.com")).
Proof.
  refine (X3_host_is_not_checked Sample.world_gitlab "gitlab.com" "acme"
            "github.com" "" nl _ _ _ _ _ _ _ _ _ _);
    reflexivity.
Defined.

(** ** More on the implement prompt *)

(** A run of implement that gets its template. *)
Lemma main_implement w inv args config n base :
  ready w inv args config ->
  command args = "implement" ->
  issue args = Some n ->
  prompt_file w "implement" = Content base ->
  trace (main w inv)
  = Run git_cmd
      :: claude_events
           (implement_prompt (issue_ref (fst (repo_info w)) n) base n)
           (print_only args).
Proof.
  intros Hr Hc Hi Hf. rewrite (main_ready _ _ _ _ Hr), Hc.
  change (dict_get commands "implement") with (Some cmd_implement).
  cbv iota. rewrite cmd_implement_eq, Hi, Hf. cbv zeta.
  rewrite exit_with_child. reflexivity.
Qed.

(** X4: in a run of implement whose origin is a GitHub remote with
    well-formed names, in either form, the prompt handed to the agent names
    the task "#N" when the owner is not empty.  With an empty owner, as in
    [https://github.com//repo.git], the lookup succeeds all the same but
    the prompt falls back to "issue N". *)
Theorem X4_github_origin_gives_hash_n w inv args config n base url owner repo
    pre post :
  ready w inv args config ->
  command args = "implement" ->
  issue args = Some n ->
  prompt_file w "implement" = Content base ->
  url = ssh_url owner repo \/ url = https_url owner repo ->
  lacks ":" owner = true ->
  lacks "/" owner = true ->
  lacks "." owner = true ->
  lacks ":" repo = true ->
  lacks "/" repo = true ->
  blank pre = true ->
  blank post = true ->
  git_origin w = Some (pre ++ url ++ post) ->
  (owner <> "" ->
   prompts_sent (trace (main w inv))
   = [implement_prompt ("#" ++ str n) base n])
  /\ (owner = "" ->
      prompts_sent (trace (main w inv))
      = [implement_prompt ("issue " ++ str n) base n]).
Proof.
  intros Hr Hc Hi Hf Hu Lco Lso Ldo Lcr Lsr Bpre Bpost Hg.
  rewrite (main_implement _ _ _ _ _ _ Hr Hc Hi Hf).
  unfold repo_info.
  rewrite (get_repo_info_wellformed w url owner repo pre post) by assumption.
  cbn [outcome snd fst].
  change (prompts_sent (Run git_cmd :: ?t)) with (prompts_sent t).
  rewrite prompts_sent_claude_events.
  split; intros H.
  - destruct owner; [contradiction|reflexivity].
  - subst owner. reflexivity.
Qed.

(** [implement --issue 42] in the SSH checkout. *)
Lemma X4_github_origin_gives_hash_n_witness :
  prompts_sent (trace (main Sample.world Sample.implement_42))
  = [implement_prompt "#42"
       "Template implement: {task_description} / {issue_number}" 42].
Proof.
  refine (proj1 (X4_github_origin_gives_hash_n Sample.world
    Sample.implement_42
    {| provider := "claude-code"; print_only := false; command := "implement";
       issue := Some 42%Z; pr := None; issues := None |}
    (YMap []) 42 "Template implement: {task_description} / {issue_number}"
    (ssh_url "acme" "widgets") "acme" "widgets" "" nl
    _ _ _ _ _ _ _ _ _ _ _ _ _) _); try reflexivity.
  - repeat split.
  - left. reflexivity.
  - discriminate.
Defined.

(** [replace] leaves alone a text without the first character of [old]. *)
Lemma replace_scan_lacks_id c old new s :
  lacks c s = true -> replace_scan (String c old) new 0 s = s.
Proof.
  intros L. rewrite <- (append_nil_r s) at 1.
  rewrite replace_scan_skip by exact L. cbn [replace_scan].
  apply append_nil_r.
Qed.

(** X5: the implement prompt holds the template twice, and each copy has
    only one of the two placeholders filled in.  For a template with one
    [{task_description}] and then one [{issue_number}] and no other brace,
    the first copy still reads [{issue_number}] and the second still reads
    [{task_description}]. *)
Theorem X5_each_template_copy_keeps_a_placeholder ref n a b c :
  lacks "{" a = true ->
  lacks "{" b = true ->
  lacks "{" c = true ->
  implement_prompt ref
    (a ++ "{task_description}" ++ b ++ "{issue_number}" ++ c) n
  = "Read GitHub issue " ++ ref ++ " and implement it." ++ nl
    ++ nl
    ++ (a ++ ("See issue " ++ ref) ++ b ++ "{issue_number}" ++ c) ++ nl
    ++ (a ++ "{task_description}" ++ b ++ str n ++ c) ++ nl
    ++ nl
    ++ "Steps:" ++ nl
    ++ "1. Read the issue to understand requirements" ++ nl
    ++ "2. Create branch: agent/" ++ str n ++ nl
    ++ "3. Implement the solution" ++ nl
    ++ "4. Run tests if applicable" ++ nl
    ++ "5. Commit with meaningful messages" ++ nl
    ++ "6. Create a PR linking to the issue" ++ nl.
Proof.
  intros La Lb Lc. unfold implement_prompt.
  assert (forall x,
            replace "{task_description}" x
              (a ++ "{task_description}" ++ b ++ "{issue_number}" ++ c)
            = a ++ x ++ b ++ "{issue_number}" ++ c) as ->.
  { intros x. unfold replace. rewrite replace_scan_skip by exact La.
    cbn [append replace_scan startswith Ascii.eqb Bool.eqb andb
         String.length Nat.sub].
    rewrite replace_scan_skip by exact Lb.
    cbn [replace_scan startswith Ascii.eqb Bool.eqb andb].
    rewrite replace_scan_lacks_id by exact Lc. reflexivity. }
  assert (forall y,
            replace "{issue_number}" y
              (a ++ "{task_description}" ++ b ++ "{issue_number}" ++ c)
            = a ++ "{task_description}" ++ b ++ y ++ c) as ->.
  { intros y. unfold replace. rewrite replace_scan_skip by exact La.
    cbn [append replace_scan startswith Ascii.eqb Bool.eqb andb].
    rewrite replace_scan_skip by exact Lb.
    cbn [append replace_scan startswith Ascii.eqb Bool.eqb andb
         String.length Nat.sub].
    rewrite replace_scan_lacks_id by exact Lc. reflexivity. }
  reflexivity.
Qed.

(** The template of the sample checkout. *)
Lemma X5_each_template_copy_keeps_a_placeholder_witness :
  implement_prompt "#42"
    "Template implement: {task_description} / {issue_number}" 42
  = "Read GitHub issue #42 and implement it." ++ nl
    ++ nl
    ++ "Template implement: See issue #42 / {issue_number}" ++ nl
    ++ "Template implement: {task_description} / 42" ++ nl
    ++ nl
    ++ "Steps:" ++ nl
    ++ "1. Read the issue to understand requirements" ++ nl
    ++ "2. Create branch: agent/42" ++ nl
    ++ "3. Implement the solution" ++ nl
    ++ "4. Run tests if applicable" ++ nl
    ++ "5. Commit with meaningful messages" ++ nl
    ++ "6. Create a PR linking to the issue" ++ nl.
Proof.
  refine (X5_each_template_copy_keeps_a_placeholder "#42" 42
            "Template implement: " " / " "" _ _ _);
    reflexivity.
Defined.

(** ** More on the batch *)

Lemma split_scan_nonempty sep s :
  forall k cur, split_scan sep k cur s <> [].
Proof.
  induction s as [|c s IH]; intros k cur; cbn [split_scan]; [discriminate|].
  destruct k as [|k]; [|apply IH].
  destruct (startswith sep (String c s)); [discriminate|apply IH].
Qed.

(** An issue list that parses is not empty. *)
Lemma parse_issues_nonempty text todo :
  parse_issues (split "," text) = ([], Ret todo) -> todo <> [].
Proof.
  intros H.
  destruct (parse_issues_cases (split "," text)) as [(todo' & E & L)|E];
    rewrite E in H; inversion H; subst.
  pose proof (split_scan_nonempty "," text 0 "") as Hn.
  fold (split "," text) in Hn.
  destruct todo; [|discriminate].
  destruct (split "," text); [contradiction|discriminate L].
Qed.

(** The first loop of the batch stops at the first child that cannot be
    started: the children before it are running, and the exception leaves
    the loop. *)
Lemma start_all_stops w todo :
  forall k, all_start w k todo = false ->
  exists before issue rest,
    todo = (before ++ issue :: rest)%list
    /\ all_start w k before = true
    /\ child w (k + List.length before) (batch_cmd issue) = None
    /\ start_all w k todo
       = ((start_events before
           ++ [Print ("  Starting issue #" ++ str issue ++ "...");
               Popen (batch_cmd issue)])%list,
          Raise OSError).
Proof.
  induction todo as [|issue rest IH]; intros k H; [discriminate H|].
  cbn [all_start] in H.
  destruct (child w k (batch_cmd issue)) as [rc|] eqn:E.
  - destruct (IH (S k) H) as (before & bad & more & -> & Hb & Hc & Hs).
    exists (issue :: before), bad, more. repeat split.
    + cbn [all_start]. rewrite E. exact Hb.
    + cbn [List.length]. rewrite Nat.add_succ_r. exact Hc.
    + cbn [start_all app]. rewrite popen_eq, E, Hs. reflexivity.
  - exists [], issue, rest. repeat split.
    + rewrite Nat.add_0_r. exact E.
    + cbn [start_all]. rewrite popen_eq, E. reflexivity.
Qed.

(** A batch in which some child cannot be started. *)
Lemma main_batch_stops w inv args config text todo :
  ready w inv args config ->
  command args = "batch" ->
  issues args = Some text ->
  parse_issues (split "," text) = ([], Ret todo) ->
  all_start w 0 todo = false ->
  exists before issue rest,
    todo = (before ++ issue :: rest)%list
    /\ all_start w 0 before = true
    /\ child w (List.length before) (batch_cmd issue) = None
    /\ main w inv
       = ((Print ("Dispatching " ++ str (Z.of_nat (List.length todo))
                  ++ " tasks...")
            :: start_events before
            ++ [Print ("  Starting issue #" ++ str issue ++ "...");
                Popen (batch_cmd issue)])%list,
          Raise OSError).
Proof.
  intros Hr Hc Ht Hp Hs.
  destruct (start_all_stops w todo 0 Hs) as (before & issue & rest & E & Hb & Hn & Hst).
  exists before, issue, rest. repeat split; try assumption.
  rewrite (main_ready _ _ _ _ Hr), Hc.
  change (dict_get commands "batch") with (Some cmd_batch). cbv iota.
  unfold cmd_batch. rewrite Ht. cbn [attr or_raise]. rewrite bind_pure, Hp.
  fold (ret todo). rewrite bind_pure, Hst. reflexivity.
Qed.

(** X6: a batch is never empty.  Once a batch run has reached its handler,
    either the issue list does not parse and the run ends with [ValueError]
    before doing anything, or [Popen] is called for the first issue (the
    call may itself raise): there is no [--issues] text, the empty one
    included, for which the batch quietly does nothing. *)
Theorem X6_batch_is_never_empty w inv args config text :
  ready w inv args config ->
  command args = "batch" ->
  issues args = Some text ->
  main w inv = ([], Raise ValueError)
  \/ exists first more,
       started (trace (main w inv)) = batch_cmd first :: more.
Proof.
  intros Hr Hc Ht.
  destruct (parse_issues_cases (split "," text)) as [(todo & Hp & _)|Hp].
  - right. pose proof (parse_issues_nonempty _ _ Hp) as Hne.
    destruct (all_start w 0 todo) eqn:Hs.
    + rewrite (main_batch_ok _ _ _ _ _ _ Hr Hc Ht Hp Hs). cbn [trace fst].
      change (?a :: ?l1 ++ ?b :: ?l2)%list with ([a] ++ l1 ++ [b] ++ l2)%list.
      rewrite !started_app, started_start_events. cbn [started app].
      destruct todo as [|first rest]; [contradiction|].
      cbn [map app]. eauto.
    + destruct (main_batch_stops _ _ _ _ _ _ Hr Hc Ht Hp Hs)
        as (before & issue & rest & _ & _ & _ & E).
      rewrite E. cbn [trace fst].
      change (?a :: ?l1 ++ ?l2)%list with ([a] ++ l1 ++ l2)%list.
      rewrite !started_app, started_start_events. cbn [started app].
      destruct before as [|first before]; cbn [map app]; eauto.
  - left. rewrite (main_ready _ _ _ _ Hr), Hc.
    change (dict_get commands "batch") with (Some cmd_batch). cbv iota.
    unfold cmd_batch. rewrite Ht. cbn [attr or_raise]. rewrite bind_pure, Hp.
    reflexivity.
Qed.

(** [batch --issues "1,2,3"] begins with the child of issue 1. *)
Lemma X6_batch_is_never_empty_witness :
  main Sample.world Sample.batch_123 = ([], Raise ValueError)
  \/ exists first more,
       started (trace (main Sample.world Sample.batch_123))
       = batch_cmd first :: more.
Proof.
  refine (X6_batch_is_never_empty Sample.world Sample.batch_123
    {| provider := "claude-code"; print_only := false; command := "batch";
       issue := None; pr := None; issues := Some "1,2,3" |}
    (YMap []) "1,2,3" _ _ _).
  - repeat split.
  - reflexivity.
  - reflexivity.
Defined.

(** X7: when a child of the batch cannot be started, the exception ends the
    run at once: the children started before it are left running and are
    never waited for, the issues after it are not started, and nothing is
    reported. *)
Theorem X7_batch_start_failure_abandons_children w inv args config text todo :
  ready w inv args config ->
  command args = "batch" ->
  issues args = Some text ->
  parse_issues (split "," text) = ([], Ret todo) ->
  all_start w 0 todo = false ->
  exists before issue rest,
    todo = (before ++ issue :: rest)%list
    /\ all_start w 0 before = true
    /\ child w (List.length before) (batch_cmd issue) = None
    /\ outcome (main w inv) = Raise OSError
    /\ started (trace (main w inv)) = map batch_cmd (before ++ [issue])
    /\ waited (trace (main w inv)) = []
    /\ reports (trace (main w inv)) = [].
Proof.
  intros Hr Hc Ht Hp Hs.
  destruct (main_batch_stops _ _ _ _ _ _ Hr Hc Ht Hp Hs)
    as (before & issue & rest & E & Hb & Hn & Hm).
  exists before, issue, rest. rewrite Hm. cbn [trace outcome fst snd].
  repeat split; try assumption.
  - change (?a :: ?l1 ++ ?l2)%list with ([a] ++ l1 ++ l2)%list.
    rewrite !started_app, started_start_events, map_app. reflexivity.
  - change (?a :: ?l1 ++ ?l2)%list with ([a] ++ l1 ++ l2)%list.
    rewrite !waited_app, waited_start_events. reflexivity.
  - cbn [reports]. rewrite reports_start_events. reflexivity.
Qed.

(** [batch --issues "1,2,3"] where the second child cannot be started: the
    first is left running. *)
Lemma X7_batch_start_failure_abandons_children_witness :
  exists before issue rest,
    [1; 2; 3]%Z = (before ++ issue :: rest)%list
    /\ all_start Sample.world_second_fails 0 before = true
    /\ child Sample.world_second_fails (List.length before) (batch_cmd issue)
       = None
    /\ outcome (main Sample.world_second_fails Sample.batch_123)
       = Raise OSError
    /\ started (trace (main Sample.world_second_fails Sample.batch_123))
       = map batch_cmd (before ++ [issue])
    /\ waited (trace (main Sample.world_second_fails Sample.batch_123)) = []
    /\ reports (trace (main Sample.world_second_fails Sample.batch_123)) = [].
Proof.
  refine (X7_batch_start_failure_abandons_children Sample.world_second_fails
    Sample.batch_123
    {| provider := "claude-code"; print_only := false; command := "batch";
       issue := None; pr := None; issues := Some "1,2,3" |}
    (YMap []) "1,2,3" [1; 2; 3]%Z _ _ _ _ _).
  - repeat split.
  - reflexivity.
  - reflexivity.
  - reflexivity.
  - reflexivity.
Defined.

(** The batch handler reads its issue text and the children's fate, and
    nothing else. *)
Lemma cmd_batch_reads w1 w2 args1 args2 c1 c2 :
  issues args1 = issues args2 ->
  (forall k cmd, child w1 k cmd = child w2 k cmd) ->
  cmd_batch w1 args1 c1 = cmd_batch w2 args2 c2.
Proof.
  intros Hi Hch. unfold cmd_batch. rewrite Hi.
  do 3 (apply proc_bind_ext; intros ?).
  rewrite (start_all_ext w1 w2) by exact Hch. reflexivity.
Qed.

(** How a batch run goes: it ends early without having started anything,
    with a help text or with a nonzero status, or it reaches the handler
    with an issue list that parses. *)
Lemma main_batch_cases w inv :
  given_command inv = Some "batch" ->
  (spawned (trace (main w inv)) = []
   /\ waited (trace (main w inv)) = []
   /\ ((given_help inv <> None /\ help_run (main w inv))
       \/ exists code, exit_code (outcome (main w inv)) = Some code
                       /\ code <> 0%Z))
  \/ exists args config text todo,
       ready w inv args config
       /\ command args = "batch"
       /\ issues args = Some text
       /\ parse_issues (split "," text) = ([], Ret todo).
Proof.
  intros Hc.
  destruct (main_cases w inv)
    as [(args & Hp & _ & Hg & _ & _)|[(why & E)|(Hh & H)]].
  2:{ left. rewrite E. split; [reflexivity|split; [reflexivity|]].
      right. exists 2%Z. split; [reflexivity|discriminate]. }
  2:{ left. split; [|split; [|left; split; assumption]];
        destruct H as [->|(c & ->)]; reflexivity. }
  assert (command args = "batch") as Hcmd by congruence.
  destruct (config_file w) as [|e|config] eqn:Hf.
  1,2: left; rewrite (main_parsed _ _ _ Hp); unfold dispatch, load_config;
       rewrite Hf; (split; [reflexivity|split; [reflexivity|]]); right;
       exists 1%Z; split; [reflexivity|discriminate].
  destruct (String.eqb_spec (provider args) "claude-code") as [Hv|Hv].
  2:{ left. rewrite (main_parsed _ _ _ Hp). unfold dispatch, load_config.
      rewrite Hf, bind_pure.
      apply String.eqb_neq in Hv. rewrite Hv.
      split; [reflexivity|split; [reflexivity|]].
      right. exists 1%Z. split; [reflexivity|discriminate]. }
  assert (ready w inv args config) as Hr by (repeat split; assumption).
  destruct (issues args) as [text|] eqn:Ht.
  2:{ left. rewrite (main_ready _ _ _ _ Hr), Hcmd.
      change (dict_get commands "batch") with (Some cmd_batch). cbv iota.
      unfold cmd_batch. rewrite Ht. split; [reflexivity|split; [reflexivity|]].
      right. exists 1%Z. split; [reflexivity|discriminate]. }
  destruct (parse_issues_cases (split "," text)) as [(todo & Hpi & _)|Hpi].
  - right. exists args, config, text, todo. auto.
  - left. rewrite (main_ready _ _ _ _ Hr), Hcmd.
    change (dict_get commands "batch") with (Some cmd_batch). cbv iota.
    unfold cmd_batch. rewrite Ht. cbn [attr or_raise].
    rewrite bind_pure, Hpi. split; [reflexivity|split; [reflexivity|]].
    right. exists 1%Z. split; [reflexivity|discriminate].
Qed.

(** X8: the batch pays no attention to [--print-only]: two batch runs that
    differ in that flag only (the same words otherwise, [-h] included, at
    the same places) are the same run, and every child of a batch is
    started as [claude --print <prompt>].  (A batch run does not depend on
    the git origin or on the prompt templates either.) *)
Theorem X8_batch_ignores_print_only w1 w2 inv1 inv2 :
  given_command inv1 = Some "batch" ->
  given_command inv2 = Some "batch" ->
  given_provider inv1 = given_provider inv2 ->
  given_issue inv1 = given_issue inv2 ->
  given_pr inv1 = given_pr inv2 ->
  given_issues inv1 = given_issues inv2 ->
  given_help inv1 = given_help inv2 ->
  config_path w1 = config_path w2 ->
  config_file w1 = config_file w2 ->
  (forall k cmd, child w1 k cmd = child w2 k cmd) ->
  main w1 inv1 = main w2 inv2
  /\ forall cmd,
       In cmd (started (trace (main w1 inv1))) ->
       exists issue, cmd = ["claude"; "--print"; batch_prompt issue].
Proof.
  intros Hc1 Hc2 Hv Hi Hp Hb Hh Hcp Hcf Hch. split.
  - unfold main, parse_args. rewrite Hc1, Hc2, Hv, Hi, Hp, Hb, Hh.
    destruct (given_help inv2) as [[| |]|]; cbv iota beta;
      cbn [String.eqb Ascii.eqb Bool.eqb orb]; [reflexivity..|].
    unfold required_text, unknown_option.
    destruct (given_issues inv2) as [text|]; [|reflexivity].
    rewrite !bind_pure.
    destruct (given_issue inv2); [reflexivity|].
    destruct (given_pr inv2); [reflexivity|].
    rewrite !bind_pure.
    unfold dispatch, load_config. rewrite Hcp, Hcf.
    cbn [provider command].
    destruct (config_file w2); try reflexivity.
    rewrite !bind_pure.
    destruct (negb _); [reflexivity|].
    change (dict_get commands "batch") with (Some cmd_batch). cbv iota.
    rewrite (cmd_batch_reads w1 w2 _
               {| provider := match given_provider inv2 with
                              | Some p => p
                              | None => "claude-code"
                              end;
                  print_only := given_print_only inv2;
                  command := "batch"; issue := None; pr := None;
                  issues := Some text |} a a); auto.
  - intros cmd Hin.
    destruct (main_batch_cases w1 inv1 Hc1)
      as [(Hs & _)|(args & config & text & todo & Hr & Hc & Ht & Hpi)].
    + exfalso. revert Hin Hs. generalize (trace (main w1 inv1)).
      induction l as [|e l IH]; [intros []|].
      destruct e; cbn [started spawned]; try discriminate; auto.
    + destruct (all_start w1 0 todo) eqn:Hs.
      * rewrite (main_batch_ok _ _ _ _ _ _ Hr Hc Ht Hpi Hs) in Hin.
        cbn [trace fst] in Hin.
        change (?a :: ?l1 ++ ?b :: ?l2)%list
          with ([a] ++ l1 ++ [b] ++ l2)%list in Hin.
        rewrite !started_app, started_start_events, started_wait_events
          in Hin.
        cbn [started app] in Hin. rewrite app_nil_r in Hin.
        apply in_map_iff in Hin as (issue & <- & _). eexists. reflexivity.
      * destruct (main_batch_stops _ _ _ _ _ _ Hr Hc Ht Hpi Hs)
          as (before & issue & rest & _ & _ & _ & E).
        rewrite E in Hin. cbn [trace fst] in Hin.
        change (?a :: ?l1 ++ ?l2)%list with ([a] ++ l1 ++ l2)%list in Hin.
        rewrite !started_app, started_start_events in Hin.
        cbn [started app] in Hin.
        apply in_app_iff in Hin as [Hin|[<-|[]]].
        -- apply in_map_iff in Hin as (i & <- & _). eexists. reflexivity.
        -- eexists. reflexivity.
Qed.

(** With and without [--print-only], and with and without a remote. *)
Lemma X8_batch_ignores_print_only_witness :
  main Sample.world Sample.batch_123
  = main Sample.world_no_remote Sample.batch_123_print_only.
Proof.
  refine (proj1 (X8_batch_ignores_print_only Sample.world
    Sample.world_no_remote Sample.batch_123 Sample.batch_123_print_only
    _ _ _ _ _ _ _ _ _ _)); reflexivity.
Defined.

(** ** What a run starts, and when it succeeds *)

Lemma claude_events_no_git prompt po :
  ~ In (Run git_cmd) (claude_events prompt po).
Proof.
  unfold claude_events, claude_cmd.
  intros [H|[H|[H|[]]]]; discriminate H.
Qed.

(** How a run of review or security-review goes: it ends early, with a
    help text or with a nonzero status, and without having started
    anything, or it prints the banner, runs the agent and ends as the agent
    does. *)
Lemma main_review_cases w inv c :
  given_command inv = Some c ->
  c = "review" \/ c = "security-review" ->
  (spawned (trace (main w inv)) = []
   /\ ((given_help inv <> None /\ help_run (main w inv))
       \/ exists code, exit_code (outcome (main w inv)) = Some code
                       /\ code <> 0%Z))
  \/ exists prompt po,
       trace (main w inv) = claude_events prompt po
       /\ outcome (main w inv)
          = match child w 0 (claude_cmd prompt po) with
            | Some rc => Exit rc
            | None => Raise OSError
            end.
Proof.
  intros Hc Hin.
  destruct (main_cases w inv)
    as [(args & Hp & _ & Hg & _ & E)|[(why & E)|(Hh & H)]].
  2:{ left. rewrite E. split; [reflexivity|right].
      exists 2%Z. split; [reflexivity|discriminate]. }
  2:{ left. split; [apply (help_run_quiet _ H)|left; split; assumption]. }
  rewrite E.
  assert (command args = c) as Hcmd by congruence.
  unfold dispatch, load_config.
  destruct (config_file w) as [|e|config];
    try (left; split; [reflexivity|right];
         exists 1%Z; split; [reflexivity|discriminate]).
  rewrite bind_pure.
  destruct (negb (provider args =? "claude-code"));
    [left; split; [reflexivity|right];
     exists 1%Z; split; [reflexivity|discriminate]|].
  rewrite Hcmd.
  destruct Hin as [->| ->].
  - change (dict_get commands "review") with (Some cmd_review).
    cbv iota. rewrite cmd_review_eq.
    destruct (prompt_file w "review") as [|e|base];
      try (left; split; [reflexivity|right];
           exists 1%Z; split; [reflexivity|discriminate]).
    destruct (pr args) as [n|];
      [|left; split; [reflexivity|right];
        exists 1%Z; split; [reflexivity|discriminate]].
    rewrite exit_with_child. right. do 2 eexists. split; reflexivity.
  - change (dict_get commands "security-review")
      with (Some cmd_security_review).
    cbv iota. rewrite cmd_security_review_eq.
    destruct (prompt_file w "security") as [|e|base];
      try (left; split; [reflexivity|right];
           exists 1%Z; split; [reflexivity|discriminate]).
    destruct (pr args) as [n|];
      [|left; split; [reflexivity|right];
        exists 1%Z; split; [reflexivity|discriminate]].
    rewrite exit_with_child. right. do 2 eexists. split; reflexivity.
Qed.

(** How a run of implement goes: it ends early, with a help text or with a
    nonzero status, having started at most git, or it runs git, prints the
    banner, runs the agent and ends as the agent does. *)
Lemma main_implement_cases w inv :
  given_command inv = Some "implement" ->
  ((spawned (trace (main w inv)) = []
    \/ spawned (trace (main w inv)) = [git_cmd])
   /\ ((given_help inv <> None /\ help_run (main w inv))
       \/ exists code, exit_code (outcome (main w inv)) = Some code
                       /\ code <> 0%Z))
  \/ exists prompt po,
       trace (main w inv) = Run git_cmd :: claude_events prompt po
       /\ outcome (main w inv)
          = match child w 0 (claude_cmd prompt po) with
            | Some rc => Exit rc
            | None => Raise OSError
            end.
Proof.
  intros Hc.
  destruct (main_cases w inv)
    as [(args & Hp & _ & Hg & _ & E)|[(why & E)|(Hh & H)]].
  2:{ left. rewrite E. split; [left; reflexivity|right].
      exists 2%Z. split; [reflexivity|discriminate]. }
  2:{ left. split; [left; apply (help_run_quiet _ H)|left; split; assumption]. }
  rewrite E.
  assert (command args = "implement") as Hcmd by congruence.
  unfold dispatch, load_config.
  destruct (config_file w) as [|e|config];
    try (left; split; [left; reflexivity|right];
         exists 1%Z; split; [reflexivity|discriminate]).
  rewrite bind_pure.
  destruct (negb (provider args =? "claude-code"));
    [left; split; [left; reflexivity|right];
     exists 1%Z; split; [reflexivity|discriminate]|].
  rewrite Hcmd.
  change (dict_get commands "implement") with (Some cmd_implement).
  cbv iota. rewrite cmd_implement_eq.
  destruct (issue args) as [n|];
    [|left; split; [right; reflexivity|right];
      exists 1%Z; split; [reflexivity|discriminate]].
  destruct (prompt_file w "implement") as [|e|base];
    try (left; split; [right; reflexivity|right];
         exists 1%Z; split; [reflexivity|discriminate]).
  cbv zeta. rewrite exit_with_child. right. do 2 eexists. split; reflexivity.
Qed.

Lemma spawned_claude_events prompt po :
  spawned (claude_events prompt po) = [claude_cmd prompt po].
Proof. reflexivity. Qed.

Lemma start_events_no_run cmd todo : ~ In (Run cmd) (start_events todo).
Proof.
  induction todo as [|i rest IH]; [intros []|].
  rewrite start_events_cons. intros [H|[H|H]]; try discriminate H. auto.
Qed.

Lemma wait_events_no_run cmd processes : ~ In (Run cmd) (wait_events processes).
Proof.
  induction processes as [|p rest IH]; [intros []|].
  rewrite wait_events_cons. intros [H|[H|H]]; try discriminate H. auto.
Qed.

(** X9: exit status 0 is earned or asked for.  A run ends with status 0
    only if [-h] was on the command line and the run printed a help text
    and did nothing else, or it is a run of implement, review or
    security-review that started the agent and the agent returned 0, or a
    batch that started a child for every issue, at least one, and waited
    for them all.  No other early way out (usage error, missing file,
    unsupported provider, exception) ends with 0. *)
Theorem X9_exit_zero_is_earned w inv :
  exit_code (outcome (main w inv)) = Some 0%Z ->
  (given_help inv <> None /\ help_run (main w inv))
  \/ (given_help inv = None
      /\ exists cmd,
           agent_spawned (trace (main w inv)) = [cmd]
           /\ child w 0 cmd = Some 0%Z)
  \/ (given_help inv = None
      /\ given_command inv = Some "batch"
      /\ started (trace (main w inv)) <> []
      /\ waited (trace (main w inv))
         = seq 0 (List.length (started (trace (main w inv))))).
Proof.
  intros H0.
  destruct (main_cases w inv)
    as [(args & Hp & Hn & Hg & Hin & _)|[(why & E)|H]].
  2:{ rewrite E in H0. discriminate H0. }
  2:{ left. exact H. }
  right.
  destruct Hin as [E|[E|[E|[E|[]]]]]; rewrite <- E in Hg; clear E.
  - left. split; [exact Hn|].
    destruct (main_implement_cases w inv Hg)
      as [(_ & [(Hh & _)|(code & Hcode & Hnz)])|(prompt & po & Ht & Ho)].
    + contradiction.
    + rewrite Hcode in H0. congruence.
    + exists (claude_cmd prompt po). rewrite Ht, agent_spawned_git,
        agent_spawned_claude_events. split; [reflexivity|].
      rewrite Ho in H0. destruct (child w 0 (claude_cmd prompt po));
        [cbn in H0; congruence|discriminate H0].
  - left. split; [exact Hn|].
    destruct (main_review_cases w inv "review" Hg (or_introl eq_refl))
      as [(_ & [(Hh & _)|(code & Hcode & Hnz)])|(prompt & po & Ht & Ho)].
    + contradiction.
    + rewrite Hcode in H0. congruence.
    + exists (claude_cmd prompt po). rewrite Ht,
        agent_spawned_claude_events. split; [reflexivity|].
      rewrite Ho in H0. destruct (child w 0 (claude_cmd prompt po));
        [cbn in H0; congruence|discriminate H0].
  - left. split; [exact Hn|].
    destruct (main_review_cases w inv "security-review" Hg
                (or_intror eq_refl))
      as [(_ & [(Hh & _)|(code & Hcode & Hnz)])|(prompt & po & Ht & Ho)].
    + contradiction.
    + rewrite Hcode in H0. congruence.
    + exists (claude_cmd prompt po). rewrite Ht,
        agent_spawned_claude_events. split; [reflexivity|].
      rewrite Ho in H0. destruct (child w 0 (claude_cmd prompt po));
        [cbn in H0; congruence|discriminate H0].
  - right. split; [exact Hn|]. split; [exact Hg|].
    destruct (main_batch_cases w inv Hg)
      as [(_ & _ & [(Hh & _)|(code & Hcode & Hnz)])
         |(a & config & text & todo & Hr & Hc & Ht & Hpi)].
    + contradiction.
    + rewrite Hcode in H0. congruence.
    + destruct (all_start w 0 todo) eqn:Hs.
      * pose proof (parse_issues_nonempty _ _ Hpi) as Hne.
        rewrite (main_batch_ok _ _ _ _ _ _ Hr Hc Ht Hpi Hs).
        cbn [trace fst].
        change (?a :: ?l1 ++ ?b :: ?l2)%list
          with ([a] ++ l1 ++ [b] ++ l2)%list.
        rewrite !started_app, !waited_app, started_start_events,
          waited_start_events, started_wait_events, waited_wait_events,
          batch_processes_pids.
        cbn [started waited app]. rewrite app_nil_r, length_map.
        split; [|reflexivity].
        destruct todo; [contradiction|discriminate].
      * destruct (main_batch_stops _ _ _ _ _ _ Hr Hc Ht Hpi Hs)
          as (before & issue & rest & _ & _ & _ & Em).
        rewrite Em in H0. discriminate H0.
Qed.

(** [review --pr 7] with an agent that ends with 0, and [review -h]
    without a configuration file. *)
Lemma X9_exit_zero_is_earned_witness :
  ((given_help Sample.review_7 <> None
    /\ help_run (main Sample.world_agent_ok Sample.review_7))
   \/ (given_help Sample.review_7 = None
       /\ exists cmd,
            agent_spawned (trace (main Sample.world_agent_ok Sample.review_7))
            = [cmd]
            /\ child Sample.world_agent_ok 0 cmd = Some 0%Z)
   \/ (given_help Sample.review_7 = None
       /\ given_command Sample.review_7 = Some "batch"
       /\ started (trace (main Sample.world_agent_ok Sample.review_7)) <> []
       /\ waited (trace (main Sample.world_agent_ok Sample.review_7))
          = seq 0 (List.length
                     (started (trace (main Sample.world_agent_ok
                                        Sample.review_7))))))
  /\ ((given_help Sample.review_help <> None
       /\ help_run (main Sample.world_no_config Sample.review_help))
      \/ (given_help Sample.review_help = None
          /\ exists cmd,
               agent_spawned
                 (trace (main Sample.world_no_config Sample.review_help))
               = [cmd]
               /\ child Sample.world_no_config 0 cmd = Some 0%Z)
      \/ (given_help Sample.review_help = None
          /\ given_command Sample.review_help = Some "batch"
          /\ started (trace (main Sample.world_no_config Sample.review_help))
             <> []
          /\ waited (trace (main Sample.world_no_config Sample.review_help))
             = seq 0 (List.length
                        (started (trace (main Sample.world_no_config
                                           Sample.review_help)))))).
Proof.
  split.
  - refine (X9_exit_zero_is_earned Sample.world_agent_ok Sample.review_7 _).
    reflexivity.
  - refine (X9_exit_zero_is_earned Sample.world_no_config Sample.review_help
              _).
    reflexivity.
Defined.

(** X10: git is asked by implement only.  A run of any other subcommand
    never runs git; a run of implement that reaches its handler runs git
    first, before it looks for its template, and once; and a run of any
    subcommand, implement included, that does not get past the argument
    parser starts no child process at all. *)
Theorem X10_only_implement_runs_git w inv :
  (given_command inv <> Some "implement" ->
   ~ In (Run git_cmd) (trace (main w inv)))
  /\ (forall args config,
        ready w inv args config ->
        command args = "implement" ->
        exists rest,
          trace (main w inv) = Run git_cmd :: rest
          /\ ~ In (Run git_cmd) rest)
  /\ ((forall args, outcome (parse_args inv) <> Ret args) ->
      spawned (trace (main w inv)) = []).
Proof.
  split; [|split].
  - intros Hni Hin.
    destruct (main_cases w inv)
      as [(args & Hp & _ & Hg & Hsub & _)|[(why & E)|(_ & H)]].
    2:{ rewrite E in Hin. destruct Hin as [H|[]]. discriminate H. }
    2:{ apply spawned_in_run in Hin.
        rewrite (proj1 (help_run_quiet _ H)) in Hin. destruct Hin. }
    destruct Hsub as [E|[E|[E|[E|[]]]]]; rewrite <- E in Hg; clear E.
    + contradiction.
    + destruct (main_review_cases w inv "review" Hg (or_introl eq_refl))
        as [(Hs & _)|(prompt & po & Ht & _)].
      * apply spawned_in_run in Hin. rewrite Hs in Hin. destruct Hin.
      * rewrite Ht in Hin. exact (claude_events_no_git _ _ Hin).
    + destruct (main_review_cases w inv "security-review" Hg
                  (or_intror eq_refl))
        as [(Hs & _)|(prompt & po & Ht & _)].
      * apply spawned_in_run in Hin. rewrite Hs in Hin. destruct Hin.
      * rewrite Ht in Hin. exact (claude_events_no_git _ _ Hin).
    + destruct (main_batch_cases w inv Hg)
        as [(Hs & _)|(a & config & text & todo & Hr & Hc & Ht & Hpi)].
      * apply spawned_in_run in Hin. rewrite Hs in Hin. destruct Hin.
      * destruct (all_start w 0 todo) eqn:Hs.
        -- rewrite (main_batch_ok _ _ _ _ _ _ Hr Hc Ht Hpi Hs) in Hin.
           cbn [trace fst] in Hin.
           destruct Hin as [H|Hin]; [discriminate H|].
           apply in_app_iff in Hin as [Hin|[H|Hin]].
           ++ exact (start_events_no_run _ _ Hin).
           ++ discriminate H.
           ++ exact (wait_events_no_run _ _ Hin).
        -- destruct (main_batch_stops _ _ _ _ _ _ Hr Hc Ht Hpi Hs)
             as (before & issue & rest & _ & _ & _ & Em).
           rewrite Em in Hin. cbn [trace fst] in Hin.
           destruct Hin as [H|Hin]; [discriminate H|].
           apply in_app_iff in Hin as [Hin|[H|[H|[]]]];
             try discriminate H.
           exact (start_events_no_run _ _ Hin).
  - intros args config Hr Hc. rewrite (main_ready _ _ _ _ Hr), Hc.
    change (dict_get commands "implement") with (Some cmd_implement).
    cbv iota. rewrite cmd_implement_eq.
    destruct (issue args) as [n|].
    + destruct (prompt_file w "implement") as [|e|base].
      * eexists. split; [reflexivity|].
        intros [H|[]]. discriminate H.
      * eexists. split; [reflexivity|]. intros [].
      * cbv zeta. rewrite exit_with_child. eexists.
        split; [reflexivity|]. apply claude_events_no_git.
    + eexists. split; [reflexivity|]. intros [].
  - intros Hstop.
    destruct (main_cases w inv)
      as [(args & Hp & _)|[(why & E)|(_ & H)]].
    + exfalso. apply (Hstop args). rewrite Hp. reflexivity.
    + rewrite E. reflexivity.
    + apply (help_run_quiet _ H).
Qed.

(** [review --pr 7] never runs git; [implement --issue 42] runs it first;
    [implement --issue x] starts nothing. *)
Lemma X10_only_implement_runs_git_witness :
  ~ In (Run git_cmd) (trace (main Sample.world Sample.review_7))
  /\ (exists rest,
        trace (main Sample.world Sample.implement_42) = Run git_cmd :: rest
        /\ ~ In (Run git_cmd) rest)
  /\ spawned (trace (main Sample.world
                       (Sample.invocation "implement" (Some "x") None None)))
     = [].
Proof.
  split; [|split].
  - refine (proj1 (X10_only_implement_runs_git Sample.world Sample.review_7)
              _).
    discriminate.
  - refine (proj1 (proj2 (X10_only_implement_runs_git Sample.world
                     Sample.implement_42))
      {| provider := "claude-code"; print_only := false;
         command := "implement"; issue := Some 42%Z; pr := None;
         issues := None |} (YMap []) _ _).
    + repeat split.
    + reflexivity.
  - refine (proj2 (proj2 (X10_only_implement_runs_git Sample.world
                     (Sample.invocation "implement" (Some "x") None None)))
              _).
    intros args. discriminate.
Defined.

(** ** Numbers written out and read back *)

Lemma is_digit_not_space c : is_digit c = true -> isspace c = false.
Proof.
  destruct c as [[] [] [] [] [] [] [] []]; vm_compute; congruence.
Qed.

Lemma digits_nospace s : digits_only s = true -> nospace s = true.
Proof.
  induction s as [|c s IH]; [reflexivity|]. cbn [digits_only nospace].
  intros H. apply andb_prop in H as [Hc Hs].
  rewrite (is_digit_not_space _ Hc), IH by exact Hs. reflexivity.
Qed.

Lemma is_digit_not_comma c : is_digit c = true -> Ascii.eqb "," c = false.
Proof.
  destruct c as [[] [] [] [] [] [] [] []]; vm_compute; congruence.
Qed.

Lemma digits_lack_comma s : digits_only s = true -> lacks "," s = true.
Proof.
  induction s as [|c s IH]; [reflexivity|]. cbn [digits_only lacks].
  intros H. apply andb_prop in H as [Hc Hs].
  rewrite (is_digit_not_comma _ Hc), IH by exact Hs. reflexivity.
Qed.

Lemma blank_lacks_comma s : blank s = true -> lacks "," s = true.
Proof.
  induction s as [|c s IH]; [reflexivity|]. cbn [blank lacks].
  intros H. apply andb_prop in H as [Hc Hs]. rewrite IH by exact Hs.
  destruct c as [[] [] [] [] [] [] [] []]; vm_compute in Hc |- *; congruence.
Qed.

Lemma rstrip_nospace s : nospace s = true -> rstrip s = s.
Proof.
  induction s as [|c s IH]; [reflexivity|]. cbn [nospace rstrip].
  intros H. apply andb_prop in H as [Hc Hs]. rewrite IH by exact Hs.
  apply negb_true_iff in Hc. rewrite Hc. destruct s; reflexivity.
Qed.

(** Blanks in front of a text without blanks are all [strip] removes. *)
Lemma strip_nospace pre s :
  blank pre = true -> nospace s = true -> strip (pre ++ s) = s.
Proof.
  intros Hp Hs. unfold strip. rewrite lstrip_blank by exact Hp.
  destruct s as [|c s]; [reflexivity|].
  cbn [nospace] in Hs. apply andb_prop in Hs as [Hc Hs'].
  apply negb_true_iff in Hc. cbn [lstrip]. rewrite Hc.
  apply rstrip_nospace. cbn [nospace]. rewrite Hc, Hs'. reflexivity.
Qed.

Lemma digits_of_uint d : digits_only (NilEmpty.string_of_uint d) = true.
Proof. induction d; cbn; auto. Qed.

(** Reading the digits of a decimal number, with a carry that is not
    zero. *)
Lemma int_digits_of_uint_acc d :
  forall p prev,
    prev = true \/ d <> Decimal.Nil ->
    int_digits prev (Zpos p) (NilEmpty.string_of_uint d)
    = Some (Zpos (Pos.of_uint_acc d p)).
Proof.
  induction d; intros p prev H;
    try (cbn [NilEmpty.string_of_uint int_digits Pos.of_uint_acc];
         match goal with
         | |- context [is_digit ?c] => change (is_digit c) with true
         end;
         cbv iota;
         match goal with
         | |- context [digit_val ?c] =>
             let v := eval vm_compute in (digit_val c) in
             change (digit_val c) with v
         end;
         match goal with
         | |- int_digits true ?z _ = Some (Zpos (Pos.of_uint_acc _ ?q)) =>
             replace z with (Zpos q) by lia; apply IHd; left; reflexivity
         end).
  destruct H as [->|H]; [reflexivity|contradiction].
Qed.

(** Reading the digits of a decimal number from the start. *)
Lemma int_digits_of_uint d :
  forall prev,
    prev = true \/ d <> Decimal.Nil ->
    int_digits prev 0 (NilEmpty.string_of_uint d)
    = Some (Z.of_N (Pos.of_uint d)).
Proof.
  induction d; intros prev H;
    try (cbn [NilEmpty.string_of_uint int_digits Pos.of_uint];
         match goal with
         | |- context [is_digit ?c] => change (is_digit c) with true
         end;
         cbv iota;
         match goal with
         | |- context [digit_val ?c] =>
             let v := eval vm_compute in (digit_val c) in
             change (digit_val c) with v
         end;
         cbn [Z.mul Z.add];
         first [ apply IHd; left; reflexivity
               | apply int_digits_of_uint_acc; left; reflexivity ]).
  destruct H as [->|H]; [reflexivity|contradiction].
Qed.

(** [str] writes a sign, if any, and then digits: [d] is never empty. *)
Lemma str_cases n :
  exists d,
    d <> Decimal.Nil
    /\ ((str n = NilEmpty.string_of_uint d /\ Z.of_N (Pos.of_uint d) = n)
        \/ (str n = String "-" (NilEmpty.string_of_uint d)
            /\ Z.opp (Z.of_N (Pos.of_uint d)) = n)).
Proof.
  destruct n as [|p|p].
  - exists (Decimal.D0 Decimal.Nil). split; [discriminate|].
    left. split; reflexivity.
  - exists (Pos.to_uint p). split; [apply DecimalPos.Unsigned.to_uint_nonnil|].
    left. rewrite DecimalPos.Unsigned.of_to. split; [|reflexivity].
    unfold str. cbn [Z.to_int NilZero.string_of_int].
    unfold NilZero.string_of_uint.
    pose proof (DecimalPos.Unsigned.to_uint_nonnil p) as H.
    destruct (Pos.to_uint p); [contradiction|reflexivity..].
  - exists (Pos.to_uint p). split; [apply DecimalPos.Unsigned.to_uint_nonnil|].
    right. rewrite DecimalPos.Unsigned.of_to. split; [|reflexivity].
    unfold str. cbn [Z.to_int NilZero.string_of_int].
    unfold NilZero.string_of_uint.
    pose proof (DecimalPos.Unsigned.to_uint_nonnil p) as H.
    destruct (Pos.to_uint p); [contradiction|reflexivity..].
Qed.

Lemma str_nospace n : nospace (str n) = true.
Proof.
  destruct (str_cases n) as (d & _ & [[-> _]|[-> _]]).
  - apply digits_nospace, digits_of_uint.
  - cbn [nospace]. rewrite digits_nospace by apply digits_of_uint.
    reflexivity.
Qed.

Lemma str_lacks_comma n : lacks "," (str n) = true.
Proof.
  destruct (str_cases n) as (d & _ & [[-> _]|[-> _]]).
  - apply digits_lack_comma, digits_of_uint.
  - cbn [lacks]. rewrite digits_lack_comma by apply digits_of_uint.
    reflexivity.
Qed.

Lemma int_isspace_isspace c : int_isspace c = true -> isspace c = true.
Proof.
  destruct c as [[] [] [] [] [] [] [] []]; vm_compute; congruence.
Qed.

(** [int] finds nothing to drop around a text without blanks. *)
Lemma int_strip_nospace s :
  nospace s = true -> int_rstrip (int_lstrip s) = s.
Proof.
  assert (forall t, nospace t = true -> int_rstrip t = t) as Hr.
  { induction t as [|c t IH]; [reflexivity|]. cbn [nospace int_rstrip].
    intros H. apply andb_prop in H as [Hc Ht]. rewrite IH by exact Ht.
    apply negb_true_iff in Hc.
    destruct (int_isspace c) eqn:E;
      [apply int_isspace_isspace in E; congruence|].
    destruct t; reflexivity. }
  intros H. destruct s as [|c s]; [reflexivity|].
  pose proof H as H'. cbn [nospace] in H'. apply andb_prop in H' as [Hc _].
  apply negb_true_iff in Hc. cbn [int_lstrip].
  destruct (int_isspace c) eqn:E;
    [apply int_isspace_isspace in E; congruence|].
  apply Hr, H.
Qed.

(** [int] reads back what [str] wrote. *)
Lemma int_str n : PyStr.int (str n) = Some n.
Proof.
  unfold PyStr.int. rewrite int_strip_nospace by apply str_nospace.
  destruct (str_cases n) as (d & Hd & [[-> <-]|[-> <-]]).
  - destruct d; [contradiction|..];
      cbn [NilEmpty.string_of_uint]; cbv iota;
      match goal with
      | |- int_digits false 0 (String ?c (NilEmpty.string_of_uint ?u)) = _ =>
          apply (int_digits_of_uint _ false (or_intror Hd))
      end.
  - cbv iota. rewrite int_digits_of_uint by (right; exact Hd). reflexivity.
Qed.

Lemma issues_text_cons sep n m rest :
  issues_text sep (n :: m :: rest)
  = str n ++ sep ++ issues_text sep (m :: rest).
Proof. reflexivity. Qed.

(** Cutting a written-out list at the commas and reading the pieces gives
    the list back. *)
Lemma parse_issues_text ws ns :
  blank ws = true ->
  ns <> [] ->
  forall pre,
    blank pre = true ->
    parse_issues (split_scan "," 0 "" (pre ++ issues_text (String "," ws) ns))
    = ([], Ret ns).
Proof.
  intros Hws. induction ns as [|n rest IH]; intros Hne pre Hpre;
    [contradiction|].
  destruct rest as [|m rest].
  - change (issues_text (String "," ws) [n]) with (str n).
    rewrite (split_scan_lacks "," ",");
      [|reflexivity
       |rewrite lacks_app, blank_lacks_comma, str_lacks_comma by exact Hpre;
        reflexivity].
    cbn [append parse_issues].
    rewrite strip_nospace by (exact Hpre || apply str_nospace).
    rewrite int_str. reflexivity.
  - rewrite issues_text_cons.
    change (String "," ws ++ issues_text (String "," ws) (m :: rest))
      with (String "," (ws ++ issues_text (String "," ws) (m :: rest))).
    rewrite <- append_assoc.
    rewrite split_scan_char
      by (rewrite lacks_app, blank_lacks_comma, str_lacks_comma by exact Hpre;
          reflexivity).
    cbn [append parse_issues].
    rewrite strip_nospace by (exact Hpre || apply str_nospace).
    rewrite int_str. cbn [or_raise]. rewrite bind_pure.
    rewrite IH by (discriminate || exact Hws). reflexivity.
Qed.

(** X11: an issue list written out in decimal, with a comma and any blanks
    between the numbers, is read back by the batch as the same list, in the
    same order, negative numbers and repetitions included; the batch then
    starts one child per number of the list. *)
Theorem X11_issue_list_round_trip ws ns :
  blank ws = true ->
  ns <> [] ->
  parse_issues (split "," (issues_text (String "," ws) ns)) = ([], Ret ns)
  /\ forall w args config,
       issues args = Some (issues_text (String "," ws) ns) ->
       all_start w 0 ns = true ->
       started (trace (cmd_batch w args config)) = map batch_cmd ns.
Proof.
  intros Hws Hne.
  assert (parse_issues (split "," (issues_text (String "," ws) ns))
          = ([], Ret ns)) as Hp
    by exact (parse_issues_text ws ns Hws Hne "" eq_refl).
  split; [exact Hp|].
  intros w args config Ht Hs.
  rewrite (cmd_batch_ok _ _ _ _ _ Ht Hp Hs). cbn [trace fst].
  change (?a :: ?l1 ++ ?b :: ?l2)%list with ([a] ++ l1 ++ [b] ++ l2)%list.
  rewrite !started_app, started_start_events, started_wait_events.
  cbn [started app]. apply app_nil_r.
Qed.

(** The list 3, -1, 3 written as "3, -1, 3". *)
Lemma X11_issue_list_round_trip_witness :
  parse_issues (split "," "3, -1, 3") = ([], Ret [3; -1; 3]%Z).
Proof.
  refine (proj1 (X11_issue_list_round_trip " " [3; -1; 3]%Z _ _)).
  - reflexivity.
  - discriminate.
Defined.

(** Two texts without blanks, each followed by a blank, are equal when
    what they start is. *)
Lemma nospace_app_inj a :
  forall b x y,
    nospace a = true ->
    nospace b = true ->
    a ++ String " " x = b ++ String " " y ->
    a = b.
Proof.
  induction a as [|c a IH]; intros b x y Ha Hb H.
  - destruct b as [|d b]; [reflexivity|].
    cbn [append] in H. inversion H; subst d.
    cbn [nospace] in Hb. discriminate Hb.
  - destruct b as [|d b].
    + cbn [append] in H. inversion H; subst c.
      cbn [nospace] in Ha. discriminate Ha.
    + cbn [append] in H. inversion H; subst d.
      cbn [nospace] in Ha, Hb.
      apply andb_prop in Ha as [_ Ha]. apply andb_prop in Hb as [_ Hb].
      f_equal. eapply IH; eassumption.
Qed.

(** X12: a number written by [str] is read back by [int] as itself, so two
    different issue numbers are never written the same way: their batch
    prompts and the command lines of their children differ. *)
Theorem X12_issue_numbers_keep_apart n m :
  PyStr.int (str n) = Some n
  /\ (n <> m -> str n <> str m)
  /\ (n <> m -> batch_cmd n <> batch_cmd m).
Proof.
  assert (forall a b, str a = str b -> a = b) as Hinj.
  { intros a b E.
    pose proof (int_str a) as Ha. pose proof (int_str b) as Hb.
    rewrite E in Ha. congruence. }
  split; [apply int_str|split].
  - intros Hne E. apply Hne, Hinj, E.
  - intros Hne E. apply Hne, Hinj.
    unfold batch_cmd, batch_prompt in E. cbn [append] in E.
    injection E as E.
    eapply nospace_app_inj; [apply str_nospace|apply str_nospace|exact E].
Qed.

(** Issues 1 and 2. *)
Lemma X12_issue_numbers_keep_apart_witness :
  batch_cmd 1 <> batch_cmd 2.
Proof.
  refine (proj2 (proj2 (X12_issue_numbers_keep_apart 1 2)) _).
  discriminate.
Defined.

(** ** The print flag *)

(** [parse_args] copies [--print-only] into the namespace and does nothing
    else with it. *)
Lemma parse_args_with_print_only inv args b :
  parse_args inv = ([], Ret args) ->
  parse_args (with_print_only inv b)
  = ([], Ret {| provider := provider args; print_only := b;
                command := command args; issue := issue args;
                pr := pr args; issues := issues args |}).
Proof.
  intros Hp. pose proof (parse_args_ret_no_help _ _ _ Hp) as Hn. revert Hp.
  unfold parse_args, required_int, required_text, unknown_option.
  cbn [with_print_only given_command given_provider given_print_only
       given_issue given_pr given_issues given_help].
  rewrite Hn.
  destruct (given_command inv) as [c|]; [|discriminate].
  destruct (String.eqb c "implement").
  { destruct (given_issue inv) as [ti|]; [destruct (PyStr.int ti)|]; step;
      try discriminate.
    destruct (given_pr inv), (given_issues inv); step; try discriminate.
    intros H. inversion H. reflexivity. }
  destruct (String.eqb c "review" || String.eqb c "security-review").
  { destruct (given_pr inv) as [ti|]; [destruct (PyStr.int ti)|]; step;
      try discriminate.
    destruct (given_issue inv), (given_issues inv); step; try discriminate.
    intros H. inversion H. reflexivity. }
  destruct (String.eqb c "batch"); [|discriminate].
  destruct (given_issues inv) as [ti|]; step; try discriminate.
  destruct (given_issue inv), (given_pr inv); step; try discriminate.
  intros H. inversion H. reflexivity.
Qed.

Lemma parse_args_print_only inv args :
  parse_args inv = ([], Ret args) ->
  print_only args = given_print_only inv.
Proof.
  intros Hp. pose proof (parse_args_ret_no_help _ _ _ Hp) as Hn. revert Hp.
  unfold parse_args, required_int, required_text, unknown_option.
  rewrite Hn.
  destruct (given_command inv) as [c|]; [|discriminate].
  destruct (String.eqb c "implement").
  { destruct (given_issue inv) as [ti|]; [destruct (PyStr.int ti)|]; step;
      try discriminate.
    destruct (given_pr inv), (given_issues inv); step; try discriminate.
    intros H. inversion H. reflexivity. }
  destruct (String.eqb c "review" || String.eqb c "security-review").
  { destruct (given_pr inv) as [ti|]; [destruct (PyStr.int ti)|]; step;
      try discriminate.
    destruct (given_issue inv), (given_issues inv); step; try discriminate.
    intros H. inversion H. reflexivity. }
  destruct (String.eqb c "batch"); [|discriminate].
  destruct (given_issues inv) as [ti|]; step; try discriminate.
  destruct (given_issue inv), (given_pr inv); step; try discriminate.
  intros H. inversion H. reflexivity.
Qed.

(** Once a single-task run has started the agent, there is one prompt
    that every run with the same subcommand and the same number hands to
    the agent, whatever its print flag. *)
Lemma single_task_prompt w inv args config cmd :
  ready w inv args config ->
  In (command args) single_task ->
  In cmd (agent_spawned (trace (main w inv))) ->
  exists prompt,
    forall inv' args',
      ready w inv' args' config ->
      command args' = command args ->
      issue args' = issue args ->
      pr args' = pr args ->
      agent_spawned (trace (main w inv'))
      = [claude_cmd prompt (print_only args')].
Proof.
  intros Hr Hin Hcmd.
  rewrite (main_ready _ _ _ _ Hr) in Hcmd.
  destruct Hin as [E|[E|[E|[]]]]; rewrite <- E in Hcmd.
  - change (dict_get commands "implement") with (Some cmd_implement) in Hcmd.
    cbv iota in Hcmd. rewrite cmd_implement_eq in Hcmd.
    destruct (issue args) as [n|] eqn:Hi; [|destruct Hcmd].
    destruct (prompt_file w "implement") as [|e|base] eqn:Hf;
      try destruct Hcmd.
    eexists. intros inv' args' Hr' Hc' Hi' _.
    rewrite (main_ready _ _ _ _ Hr'), Hc', <- E.
    change (dict_get commands "implement") with (Some cmd_implement).
    cbv iota. rewrite cmd_implement_eq, Hi', Hf. cbv zeta.
    rewrite exit_with_child. cbn [trace fst].
    rewrite agent_spawned_git. apply agent_spawned_claude_events.
  - change (dict_get commands "review") with (Some cmd_review) in Hcmd.
    cbv iota in Hcmd. rewrite cmd_review_eq in Hcmd.
    destruct (prompt_file w "review") as [|e|base] eqn:Hf; try destruct Hcmd.
    destruct (pr args) as [n|] eqn:Hi; [|destruct Hcmd].
    eexists. intros inv' args' Hr' Hc' _ Hi'.
    rewrite (main_ready _ _ _ _ Hr'), Hc', <- E.
    change (dict_get commands "review") with (Some cmd_review).
    cbv iota. rewrite cmd_review_eq, Hf, Hi'.
    rewrite exit_with_child. apply agent_spawned_claude_events.
  - change (dict_get commands "security-review")
      with (Some cmd_security_review) in Hcmd.
    cbv iota in Hcmd. rewrite cmd_security_review_eq in Hcmd.
    destruct (prompt_file w "security") as [|e|base] eqn:Hf;
      try destruct Hcmd.
    destruct (pr args) as [n|] eqn:Hi; [|destruct Hcmd].
    eexists. intros inv' args' Hr' Hc' _ Hi'.
    rewrite (main_ready _ _ _ _ Hr'), Hc', <- E.
    change (dict_get commands "security-review")
      with (Some cmd_security_review).
    cbv iota. rewrite cmd_security_review_eq, Hf, Hi'.
    rewrite exit_with_child. apply agent_spawned_claude_events.
Qed.

(** X13: for implement, review and security-review, [--print-only] decides
    whether the agent is started with [--print], and nothing else about the
    command line.  When a run has started the agent, there is one prompt
    such that the agent was started as [claude --print <prompt>] when the
    flag was given and as [claude <prompt>] when it was not, and such that
    the same command line with the flag set either way starts the agent
    once, with that same prompt, with [--print] exactly when the flag is
    set. *)
Theorem X13_print_only_decides_print w inv args config cmd :
  ready w inv args config ->
  In (command args) single_task ->
  In cmd (agent_spawned (trace (main w inv))) ->
  exists prompt,
    cmd = (if given_print_only inv
           then ["claude"; "--print"; prompt]
           else ["claude"; prompt])
    /\ forall b,
         agent_spawned (trace (main w (with_print_only inv b)))
         = [if b then ["claude"; "--print"; prompt] else ["claude"; prompt]].
Proof.
  intros Hr Hin Hcmd.
  destruct (single_task_prompt w inv args config cmd Hr Hin Hcmd)
    as [prompt Hall].
  exists prompt. split.
  - rewrite (Hall inv args Hr eq_refl eq_refl eq_refl) in Hcmd.
    destruct Hcmd as [<-|[]].
    destruct Hr as (Hp & _ & _).
    rewrite (parse_args_print_only _ _ Hp).
    destruct (given_print_only inv); reflexivity.
  - intros b. destruct Hr as (Hp & Hc & Hv).
    rewrite (Hall (with_print_only inv b)
               {| provider := provider args; print_only := b;
                  command := command args; issue := issue args;
                  pr := pr args; issues := issues args |});
      try reflexivity.
    + destruct b; reflexivity.
    + split; [apply parse_args_with_print_only, Hp|split; assumption].
Qed.

(** [review --pr 7] without the flag, and with it. *)
Lemma X13_print_only_decides_print_witness :
  exists prompt,
    claude_cmd (review_prompt "Template review: {task_description} / {issue_number}" 7)
      false
    = ["claude"; prompt]
    /\ forall b,
         agent_spawned
           (trace (main Sample.world
                     (with_print_only Sample.review_7 b)))
         = [if b then ["claude"; "--print"; prompt] else ["claude"; prompt]].
Proof.
  refine (X13_print_only_decides_print Sample.world Sample.review_7
    {| provider := "claude-code"; print_only := false; command := "review";
       issue := None; pr := Some 7%Z; issues := None |}
    (YMap []) _ _ _ _).
  - repeat split.
  - simpl. tauto.
  - vm_compute. left. reflexivity.
Defined.
